(** * zfs_exporter: the collection pass of [ZFSCollector]

    A shallow embedding of [src/py_zfs_exporter/zfs_exporter.py] and the
    properties of its [collect] method.

    - Python values that reach a sample are kept dynamic ([PyVal]).
    - Exceptions are explicit: every expression of the source that can raise
      lives in the [result] monad.
    - The dictionaries whose iteration order decides the order of the yielded
      series ([pools_metrics], [datasets_metrics], [dsmetrics], ...) are
      insertion-ordered association lists; the property dictionaries of the
      ZFS objects, which are only looked up, are [gmap]s.
    - The wall clock and the ZFS library are inputs of the pass. *)

From Stdlib Require Import Ascii String QArith.
From stdpp Require Import gmap strings list fin_maps.

Open Scope string_scope.
Open Scope Z_scope.
Disable Notation "_ ++ _" : string_scope.

(** ** Python values and exceptions *)

Inductive PyVal :=
| VNone
| VBool (b : bool)
| VInt (z : Z)
| VStr (s : string).

#[global] Instance PyVal_eq_dec : EqDecision PyVal.
Proof. solve_decision. Defined.

(** Truth value testing, as used by [and] and by the conditional expression. *)
Definition truthy (v : PyVal) : bool :=
  match v with
  | VNone => false
  | VBool b => b
  | VInt z => negb (Z.eqb z 0)
  | VStr s => negb (String.eqb s "")
  end.

Inductive exn :=
| KeyError (key : string)
| ValueError (msg : string)
| ZFSException (msg : string).

Inductive result (A : Type) :=
| Ok (a : A)
| Raise (e : exn).
Arguments Ok {A} a.
Arguments Raise {A} e.

#[global] Instance result_ret : MRet result := fun _ a => Ok a.
#[global] Instance result_bind : MBind result := fun _ _ f r =>
  match r with
  | Ok a => f a
  | Raise e => Raise e
  end.

Definition is_Ok {A} (r : result A) : bool :=
  match r with Ok _ => true | Raise _ => false end.

(** A [for] loop whose body may raise, threading the state it mutates. *)
Fixpoint for_each {A S} (body : A → S → result S) (l : list A) (s : S) : result S :=
  match l with
  | [] => Ok s
  | x :: l' => s' ← body x s; for_each body l' s'
  end.

(** ** Strings: [str.split] and [int] *)

Module Str.

(** [s.split(sep)] for a one-character separator: every occurrence cuts,
    empty pieces are kept. *)
Fixpoint split (sep : ascii) (s : string) : list string :=
  match s with
  | EmptyString => [EmptyString]
  | String c r =>
      if Ascii.eqb c sep then EmptyString :: split sep r
      else match split sep r with
           | h :: t => String c h :: t
           | [] => [String c EmptyString]
           end
  end.

Fixpoint count (sep : ascii) (s : string) : nat :=
  match s with
  | EmptyString => 0
  | String c r => ((if Ascii.eqb c sep then 1 else 0) + count sep r)%nat
  end.

(** White space in the sense of [int]: TAB..CR, FS..US and the space. *)
Definition is_space (c : ascii) : bool :=
  let n := nat_of_ascii c in
  ((9 <=? n)%nat && (n <=? 13)%nat) || ((28 <=? n)%nat && (n <=? 32)%nat).

Definition digit (c : ascii) : option Z :=
  let n := nat_of_ascii c in
  if ((48 <=? n)%nat && (n <=? 57)%nat) then Some (Z.of_nat n - 48) else None.

Fixpoint lstrip (l : list ascii) : list ascii :=
  match l with
  | c :: r => if is_space c then lstrip r else l
  | [] => []
  end.

Definition strip (l : list ascii) : list ascii :=
  rev (lstrip (rev (lstrip l))).

(** Decimal digits with single underscores between digits; [prev] tells
    whether the previous character was a digit. *)
Fixpoint digits (prev : bool) (acc : Z) (l : list ascii) : option Z :=
  match l with
  | [] => if prev then Some acc else None
  | c :: r =>
      match digit c with
      | Some d => digits true (10 * acc + d) r
      | None =>
          if Ascii.eqb c "_" then (if prev then digits false acc r else None)
          else None
      end
  end.

Definition parse_int (s : string) : option Z :=
  match strip (list_ascii_of_string s) with
  | c :: r =>
      if Ascii.eqb c "-" then Z.opp <$> digits false 0 r
      else if Ascii.eqb c "+" then digits false 0 r
      else digits false 0 (c :: r)
  | [] => None
  end.

End Str.

(** [int(s)] for a [str] argument (base 10). The interpreter's configurable
    cap on the number of digits is outside the model. *)
Definition py_int (s : string) : result Z :=
  match Str.parse_int s with
  | Some z => Ok z
  | None => Raise (ValueError ("invalid literal for int() with base 10: '" +:+ s +:+ "'"))
  end.

(** [d[k]] on a dictionary. *)
Definition subscript {V} (d : gmap string V) (k : string) : result V :=
  match d !! k with
  | Some v => Ok v
  | None => Raise (KeyError k)
  end.

(** ** Insertion-ordered dictionaries *)

Module Dict.

Definition t (V : Type) := list (string * V).

Fixpoint get {V} (d : t V) (k : string) : option V :=
  match d with
  | [] => None
  | (k', v) :: d' => if String.eqb k' k then Some v else get d' k
  end.

(** [d[k] = v]: an existing key keeps its position, a new key goes last. *)
Fixpoint set {V} (k : string) (v : V) (d : t V) : t V :=
  match d with
  | [] => [(k, v)]
  | (k', v') :: d' =>
      if String.eqb k' k then (k', v) :: d' else (k', v') :: set k v d'
  end.

Definition keys {V} (d : t V) : list string := d.*1.
Definition values {V} (d : t V) : list V := d.*2.

Definition getitem {V} (d : t V) (k : string) : result V :=
  match get d k with
  | Some v => Ok v
  | None => Raise (KeyError k)
  end.

End Dict.

(** ** The metrics library: gauge families and the latency summary *)

Module Sample.
Record t := mk {
  name : string;
  labels : list (string * string);
  value : PyVal
}.
End Sample.

Module GaugeMetricFamily.

Record t := mk {
  name : string;
  documentation : string;
  labelnames : list string;
  samples : list Sample.t
}.

(** [GaugeMetricFamily(name, documentation, labels=labelnames)] *)
Definition new (name documentation : string) (labelnames : list string) : t :=
  mk name documentation labelnames [].

(** [self.add_metric(labels, value)] appends one sample that carries the
    family's name and the label values zipped with the label names. *)
Definition add_metric (self : t) (labels : list string) (value : PyVal) : t :=
  mk (name self) (documentation self) (labelnames self)
     (samples self ++ [Sample.mk (name self) (zip (labelnames self) labels) value]).

End GaugeMetricFamily.

Module Summary.

(** The summary is modelled by the amounts it was given, oldest first. *)
Record t := mk {
  name : string;
  documentation : string;
  observations : list Q
}.

Definition new (name documentation : string) : t := mk name documentation [].

Definition observe (self : t) (amount : Q) : t :=
  mk (name self) (documentation self) (observations self ++ [amount]).

Definition count (self : t) : nat := length (observations self).

End Summary.

(** ** The ZFS library: pools, datasets and their properties *)

Record ZFSProperty := {
  rawvalue : string;
  parsed : PyVal
}.

Module ZFSPool.
Record t := mk {
  name : string;
  properties : gmap string ZFSProperty
}.
End ZFSPool.

Module DatasetType.
Inductive t := FILESYSTEM | VOLUME | SNAPSHOT | BOOKMARK.

Definition name (ty : t) : string :=
  match ty with
  | FILESYSTEM => "FILESYSTEM"
  | VOLUME => "VOLUME"
  | SNAPSHOT => "SNAPSHOT"
  | BOOKMARK => "BOOKMARK"
  end.
End DatasetType.

Module ZFSDataset.
Record t := mk {
  name : string;
  pool : ZFSPool.t;
  type : DatasetType.t;
  properties : gmap string ZFSProperty
}.
End ZFSDataset.

Module libzfs.

(** What iterating over a collection of the library delivers: the objects
    it hands out and, when the enumeration breaks off, the exception that
    ends it. *)
Record Enumeration (A : Type) := {
  items : list A;
  failure : option exn
}.
Arguments items {A} _.
Arguments failure {A} _.

(** [libzfs.ZFS().pools] and [libzfs.ZFS().datasets]: each either raises
    or gives a collection to iterate over. *)
Record ZFS := {
  pools : result (Enumeration ZFSPool.t);
  datasets : result (Enumeration ZFSDataset.t)
}.

End libzfs.

(** [for x in e: body], where the enumeration itself may end in an exception. *)
Definition for_enum {A S} (body : A → S → result S)
    (e : libzfs.Enumeration A) (s : S) : result S :=
  s' ← for_each body (libzfs.items e) s;
  match libzfs.failure e with
  | Some err => Raise err
  | None => Ok s'
  end.

(** ** The collector *)

Record Meta := {
  desc : string;
  getter : ZFSDataset.t → result PyVal
}.

(** [{'filesystem': 0, ...}.get(key, default)]: only a [str] can be equal
    to one of the keys. *)
Definition dict_get_default (d : Dict.t Z) (key : PyVal) (default : Z) : Z :=
  match key with
  | VStr s => match Dict.get d s with Some z => z | None => default end
  | _ => default
  end.

Definition pmetrics : list string := ["size"; "allocated"; "freeing"].

Definition dsmetrics : Dict.t Meta := [
  ("used_bytes",
   {| desc := "The amount of space consumed by this dataset and all its descendants, in bytes";
      getter := fun d => p ← subscript (ZFSDataset.properties d) "used"; Ok (parsed p) |});
  ("usedbydataset_bytes",
   {| desc := "The amount of space used by this dataset itself, excluding descendants, in bytes";
      getter := fun d => p ← subscript (ZFSDataset.properties d) "usedbydataset"; Ok (parsed p) |});
  ("available_bytes",
   {| desc := "The amount of space available to the dataset and all its children, in bytes";
      getter := fun d => p ← subscript (ZFSDataset.properties d) "available"; Ok (parsed p) |});
  ("atime_enabled",
   {| desc := "Whether access time updates are enabled (1 = on, 0 = off)";
      getter := fun d =>
        (* [d.properties.get('atime') and d.properties['atime'].parsed];
           a property object is truthy *)
        cond ← match ZFSDataset.properties d !! "atime" with
               | Some _ => p ← subscript (ZFSDataset.properties d) "atime"; Ok (truthy (parsed p))
               | None => Ok false
               end;
        Ok (VInt (if cond : bool then 1 else 0)) |});
  ("creation_date",
   {| desc := "The time this dataset was created, in epoch";
      getter := fun d =>
        p ← subscript (ZFSDataset.properties d) "creation";
        z ← py_int (rawvalue p);
        Ok (VInt z) |});
  ("type",
   {| desc := "Dataset type: 0=filesystem, 1=volume, 2=snapshot, 3=bookmark";
      getter := fun d =>
        p ← subscript (ZFSDataset.properties d) "type";
        Ok (VInt (dict_get_default
                    [("filesystem", 0); ("volume", 1); ("snapshot", 2); ("bookmark", 3)]
                    (parsed p) (-1))) |})
].

Definition volmetrics : Dict.t Meta := [
  ("volsize_bytes",
   {| desc := "logical size of the volume, in bytes";
      getter := fun v => p ← subscript (ZFSDataset.properties v) "volsize"; Ok (parsed p) |})
].

Module ZFSCollector.

Record t := mk {
  exclude : gset string;
  limit : Z;
  duration_summary : Summary.t
}.

(** [__init__(self, limit, exclude)] *)
Definition init (limit : Z) (exclude : list string) : t :=
  mk (list_to_set exclude) limit
     (Summary.new "zfs_collect_duration" "Duration needed collecting metrics").

End ZFSCollector.

(** What a consumer that exhausts the generator returned by [collect] sees:
    the series it was handed, in order, and the exception that ended the
    iteration, if any. *)
Record Generator := {
  yielded : list GaugeMetricFamily.t;
  raised : option exn
}.

Abbreviation Metrics := (Dict.t GaugeMetricFamily.t).

(** [metrics[key].add_metric(labels, value)]: the family is looked up first,
    then the arguments are evaluated, then the sample is appended to the
    family object held by the dictionary. *)
Definition add_metric_at (metrics : Metrics) (key : string)
    (labels : list string) (value : result PyVal) : result Metrics :=
  fam ← Dict.getitem metrics key;
  v ← value;
  Ok (Dict.set key (GaugeMetricFamily.add_metric fam labels v) metrics).

(** Lines 63-68. *)
Definition new_pools_metrics : Metrics :=
  foldl (fun pools_metrics p =>
           Dict.set p (GaugeMetricFamily.new
                         ("zfs_pool_" +:+ p +:+ "_bytes")
                         ("ZFS Pool " +:+ p +:+ " in bytes")
                         ["pool"]) pools_metrics)
        [] pmetrics.

(** Lines 70-82. *)
Definition new_datasets_metrics : Metrics :=
  let family := fun datasets_metrics (item : string * Meta) =>
    Dict.set item.1 (GaugeMetricFamily.new
                       ("zfs_dataset_" +:+ item.1) (desc item.2)
                       ["pool"; "dataset"]) datasets_metrics in
  foldl family (foldl family [] dsmetrics) volmetrics.

(** Lines 84-86, the body of the loop over the pools. *)
Definition collect_pool (pool : ZFSPool.t) (pools_metrics : Metrics) : result Metrics :=
  for_each (fun p pools_metrics =>
              add_metric_at pools_metrics p [ZFSPool.name pool]
                (prop ← subscript (ZFSPool.properties pool) p; Ok (parsed prop)))
           pmetrics pools_metrics.

Definition depth (ds : ZFSDataset.t) : Z :=
  Z.of_nat (length (Str.split "/" (ZFSDataset.name ds))) - 1.

(** Lines 89-99, the body of the loop over the datasets. *)
Definition collect_dataset (limit : Z) (ds : ZFSDataset.t)
    (datasets_metrics : Metrics) : result Metrics :=
  let labels := [ZFSPool.name (ZFSDataset.pool ds); ZFSDataset.name ds] in
  if depth ds >? limit then Ok datasets_metrics
  else if depth ds =? limit then
    add_metric_at datasets_metrics "used_bytes" labels
      (meta ← Dict.getitem dsmetrics "used_bytes"; getter meta ds)
  else
    datasets_metrics ←
      (if String.eqb (DatasetType.name (ZFSDataset.type ds)) "VOLUME" then
         for_each (fun '(vol, meta) datasets_metrics =>
                     add_metric_at datasets_metrics vol labels (getter meta ds))
                  volmetrics datasets_metrics
       else Ok datasets_metrics);
    for_each (fun '(d, meta) datasets_metrics =>
                add_metric_at datasets_metrics d labels (getter meta ds))
             dsmetrics datasets_metrics.

(** Lines 60-99: everything between the two clock readings. *)
Definition gather (limit : Z) (zfs : libzfs.ZFS) : result (Metrics * Metrics) :=
  pools ← libzfs.pools zfs;
  datasets ← libzfs.datasets zfs;
  pools_metrics ← for_enum collect_pool pools new_pools_metrics;
  datasets_metrics ← for_enum (collect_dataset limit) datasets new_datasets_metrics;
  Ok (pools_metrics, datasets_metrics).

(** [collect(self)], run by a consumer that exhausts the generator.
    [time n] is what the [n]-th call of [time.time()] of the pass returns;
    the readings are taken as rationals, and the subtraction of the source,
    which rounds, keeps the sign of the exact difference.
    Every statement that can raise precedes the first [yield], so a pass
    either raises having yielded nothing, or yields all its series. The
    result pairs what the consumer saw with the collector afterwards. *)
Definition collect (self : ZFSCollector.t) (zfs : libzfs.ZFS) (time : nat → Q)
    : Generator * ZFSCollector.t :=
  let volumes_metrics : Metrics := [] in
  let start := time 0%nat in
  match gather (ZFSCollector.limit self) zfs with
  | Raise e => ({| yielded := []; raised := Some e |}, self)
  | Ok (pools_metrics, datasets_metrics) =>
      let duration := (time 1%nat - start)%Q in
      ({| yielded := Dict.values pools_metrics ++ Dict.values datasets_metrics
                       ++ Dict.values volumes_metrics;
          raised := None |},
       ZFSCollector.mk (ZFSCollector.exclude self) (ZFSCollector.limit self)
         (Summary.observe (ZFSCollector.duration_summary self) duration))
  end.

(** ** The pass as a sequence of [add_metric] calls

    Both loops of [collect] do nothing but call [add_metric] on a family of
    a dictionary. A [Call] records one such call: the key of the family, the
    label values and the (possibly raising) evaluation of the value. *)

Record Call := {
  call_key : string;
  call_labels : list string;
  call_value : result PyVal
}.

Definition run_calls (calls : list Call) (metrics : Metrics) : result Metrics :=
  for_each (fun c metrics =>
              add_metric_at metrics (call_key c) (call_labels c) (call_value c))
           calls metrics.

(** The calls of one iteration of the loop over the pools. *)
Definition pool_calls (pool : ZFSPool.t) : list Call :=
  map (fun p => {| call_key := p;
                   call_labels := [ZFSPool.name pool];
                   call_value := prop ← subscript (ZFSPool.properties pool) p;
                                 Ok (parsed prop) |})
      pmetrics.

Definition dataset_labels (ds : ZFSDataset.t) : list string :=
  [ZFSPool.name (ZFSDataset.pool ds); ZFSDataset.name ds].

Definition catalog_calls (catalog : Dict.t Meta) (ds : ZFSDataset.t) : list Call :=
  map (fun item : string * Meta =>
         {| call_key := item.1;
            call_labels := dataset_labels ds;
            call_value := getter item.2 ds |})
      catalog.

(** The calls of one iteration of the loop over the datasets. *)
Definition dataset_calls (limit : Z) (ds : ZFSDataset.t) : list Call :=
  if depth ds >? limit then []
  else if depth ds =? limit then
    [{| call_key := "used_bytes";
        call_labels := dataset_labels ds;
        call_value := meta ← Dict.getitem dsmetrics "used_bytes"; getter meta ds |}]
  else
    (if String.eqb (DatasetType.name (ZFSDataset.type ds)) "VOLUME"
     then catalog_calls volmetrics ds else [])
    ++ catalog_calls dsmetrics ds.

(** The label values and value of the calls that reach the family [k]. *)
Definition rows_for (k : string) (calls : list Call) : list (list string * PyVal) :=
  flat_map (fun c =>
              if String.eqb (call_key c) k then
                match call_value c with
                | Ok v => [(call_labels c, v)]
                | Raise _ => []
                end
              else [])
           calls.

(** A family after [add_metric] was called on it with each of [rows]. *)
Definition add_rows (fam : GaugeMetricFamily.t) (rows : list (list string * PyVal))
    : GaugeMetricFamily.t :=
  foldl (fun fam r => GaugeMetricFamily.add_metric fam r.1 r.2) fam rows.

(** A dictionary of families after each family received its [rows]. *)
Definition grow (rows : string → list (list string * PyVal)) (metrics : Metrics)
    : Metrics :=
  map (fun kf => (kf.1, add_rows kf.2 (rows kf.1))) metrics.

(** The sample that [add_metric] builds in a family. *)
Definition sample_in (name : string) (labelnames : list string)
    (row : list string * PyVal) : Sample.t :=
  Sample.mk name (zip labelnames row.1) row.2.

(** The series of the pool property [p] after a pass over [pools], and the
    series of a catalog row after a pass over [datasets]. *)
Definition pool_series (pools : list ZFSPool.t) (p : string) : GaugeMetricFamily.t :=
  GaugeMetricFamily.mk
    ("zfs_pool_" +:+ p +:+ "_bytes") ("ZFS Pool " +:+ p +:+ " in bytes") ["pool"]
    (map (sample_in ("zfs_pool_" +:+ p +:+ "_bytes") ["pool"])
         (rows_for p (flat_map pool_calls pools))).

Definition dataset_series (limit : Z) (datasets : list ZFSDataset.t)
    (item : string * Meta) : GaugeMetricFamily.t :=
  GaugeMetricFamily.mk
    ("zfs_dataset_" +:+ item.1) (desc item.2) ["pool"; "dataset"]
    (map (sample_in ("zfs_dataset_" +:+ item.1) ["pool"; "dataset"])
         (rows_for item.1 (flat_map (dataset_calls limit) datasets))).

(** ** Observations on the output *)

Definition label (s : Sample.t) (labelname : string) : option string :=
  Dict.get (Sample.labels s) labelname.

Definition all_samples (series : list GaugeMetricFamily.t) : list Sample.t :=
  flat_map GaugeMetricFamily.samples series.

(** The samples of the output that carry [dataset="n"], in the order of the
    series. *)
Definition dataset_samples (n : string) (series : list GaugeMetricFamily.t)
    : list Sample.t :=
  filter (fun s => label s "dataset" = Some n) (all_samples series).

(** The samples for [n] in the series called [name]. *)
Definition dataset_samples_in (name n : string) (series : list GaugeMetricFamily.t)
    : list Sample.t :=
  filter (fun s => Sample.name s = name) (dataset_samples n series).

(** A dataset is identified by its name: [ds] is the one dataset of the
    enumeration called that way. *)
Definition identified (ds : ZFSDataset.t) (datasets : list ZFSDataset.t) : Prop :=
  filter (fun d => ZFSDataset.name d = ZFSDataset.name ds) datasets = [ds].

(** The calls of a pass are [evaluated] when none of their values raises. *)
Definition evaluated (calls : list Call) : Prop :=
  Forall (fun c => is_Ok (call_value c) = true) calls.

(** The rows a getter result contributes for a dataset. *)
Definition result_rows (ds : ZFSDataset.t) (r : result PyVal)
    : list (list string * PyVal) :=
  match r with
  | Ok v => [(dataset_labels ds, v)]
  | Raise _ => []
  end.

(** The samples one dataset puts into the series of a catalog row. *)
Definition own_samples (limit : Z) (ds : ZFSDataset.t) (item : string * Meta)
    : list Sample.t :=
  map (sample_in ("zfs_dataset_" +:+ item.1) ["pool"; "dataset"])
      (rows_for item.1 (dataset_calls limit ds)).

(** [s] is the sample of the catalog row [item] for the dataset [ds]: it
    carries the name of the row's series, the labels [(pool, dataset)] and
    the value the row's getter returns. *)
Definition row_sample (ds : ZFSDataset.t) (item : string * Meta) (s : Sample.t)
    : Prop :=
  Sample.name s = "zfs_dataset_" +:+ item.1
  ∧ Sample.labels s = [("pool", ZFSPool.name (ZFSDataset.pool ds));
                       ("dataset", ZFSDataset.name ds)]
  ∧ getter item.2 ds = Ok (Sample.value s).

Definition is_volume (ds : ZFSDataset.t) : bool :=
  String.eqb (DatasetType.name (ZFSDataset.type ds)) "VOLUME".



(** ** A small hierarchy to run the pass on

    The pool [tank] with a filesystem at depth 1, one at depth 2, one at
    depth 3 and a volume at depth 1 that has no [atime]. *)

Module Scenario.

Definition bytes (n : Z) : ZFSProperty :=
  {| rawvalue := ""; parsed := VInt n |}.

Definition tank : ZFSPool.t :=
  ZFSPool.mk "tank"
    (list_to_map [("size", bytes 1000); ("allocated", bytes 400);
                  ("freeing", bytes 0)]).

Definition fs_properties (used : Z) (type : string) : gmap string ZFSProperty :=
  list_to_map
    [("used", bytes used); ("usedbydataset", bytes 1); ("available", bytes 2);
     ("atime", {| rawvalue := "on"; parsed := VBool true |});
     ("creation", {| rawvalue := "1700000000"; parsed := VNone |});
     ("type", {| rawvalue := type; parsed := VStr type |})].

Definition data : ZFSDataset.t :=
  ZFSDataset.mk "tank/data" tank DatasetType.FILESYSTEM
    (fs_properties 500 "filesystem").

Definition logs : ZFSDataset.t :=
  ZFSDataset.mk "tank/data/logs" tank DatasetType.FILESYSTEM
    (fs_properties 7 "filesystem").

Definition deep : ZFSDataset.t :=
  ZFSDataset.mk "tank/data/logs/old" tank DatasetType.FILESYSTEM
    (fs_properties 3 "filesystem").

Definition vol1 : ZFSDataset.t :=
  ZFSDataset.mk "tank/vol1" tank DatasetType.VOLUME
    (<["volsize" := bytes 2048]> (delete "atime" (fs_properties 9 "volume"))).

(** A filesystem at depth 1 without [used]. *)
Definition broken : ZFSDataset.t :=
  ZFSDataset.mk "tank/broken" tank DatasetType.FILESYSTEM
    (delete "used" (fs_properties 0 "filesystem")).

Definition all {A} (l : list A) : libzfs.Enumeration A :=
  {| libzfs.items := l; libzfs.failure := None |}.

Definition datasets : list ZFSDataset.t := [data; logs; vol1; deep].

Definition zfs : libzfs.ZFS :=
  {| libzfs.pools := Ok (all [tank]); libzfs.datasets := Ok (all datasets) |}.

Definition zfs_broken : libzfs.ZFS :=
  {| libzfs.pools := Ok (all [tank]);
     libzfs.datasets := Ok (all [data; broken; vol1]) |}.

(** The library cannot be opened. *)
Definition zfs_unavailable : libzfs.ZFS :=
  {| libzfs.pools := Raise (ZFSException "Failed to initialize libzfs");
     libzfs.datasets := Raise (ZFSException "Failed to initialize libzfs") |}.

(** A clock that reads 5 and then 7, and one that is set back from 5 to 3
    between the two readings. *)
Definition clock (n : nat) : Q := match n with O => 5 | _ => 7 end.

Definition collector : ZFSCollector.t := ZFSCollector.init 2 [].

End Scenario.

(** ** Further observations and inputs *)

(** The samples of the series called [name]. *)
Definition samples_of (name : string) (series : list GaugeMetricFamily.t)
    : list Sample.t :=
  all_samples (filter (fun f => GaugeMetricFamily.name f = name) series).

(** The labels of the samples of a dataset. *)
Definition label_set (ds : ZFSDataset.t) : list (string * string) :=
  [("pool", ZFSPool.name (ZFSDataset.pool ds)); ("dataset", ZFSDataset.name ds)].

(** A pool has the three properties the pass reads from it. *)
Definition pool_readable (pool : ZFSPool.t) : Prop :=
  ∀ k, k ∈ pmetrics → is_Some (ZFSPool.properties pool !! k).


(** The number of [add_metric] calls of one iteration of the dataset loop. *)
Definition dataset_sample_count (limit : Z) (ds : ZFSDataset.t) : nat :=
  if depth ds >? limit then 0%nat
  else if depth ds =? limit then 1%nat
  else (length dsmetrics + (if is_volume ds then length volmetrics else 0))%nat.

(** The source [zfs] with the datasets deeper than [limit] left out of the
    enumeration. *)
Definition within_limit (limit : Z) (zfs : libzfs.ZFS) : libzfs.ZFS :=
  {| libzfs.pools := libzfs.pools zfs;
     libzfs.datasets :=
       match libzfs.datasets zfs with
       | Ok e => Ok {| libzfs.items :=
                         filter (fun ds => depth ds <= limit) (libzfs.items e);
                       libzfs.failure := libzfs.failure e |}
       | Raise err => Raise err
       end |}.

(** Successive scrapes: the registry calls [collect] on the one registered
    collector, each time with the source and the clock of that moment. *)
Fixpoint passes (self : ZFSCollector.t) (scrapes : list (libzfs.ZFS * (nat → Q)))
    : list Generator * ZFSCollector.t :=
  match scrapes with
  | [] => ([], self)
  | (zfs, time) :: scrapes' =>
      let r := collect self zfs time in
      let rs := passes r.2 scrapes' in
      (r.1 :: rs.1, rs.2)
  end.

(** The exception of the first call whose value raises. *)
Fixpoint first_error (calls : list Call) : option exn :=
  match calls with
  | [] => None
  | c :: calls' =>
      match call_value c with
      | Raise e => Some e
      | Ok _ => first_error calls'
      end
  end.



(** Further inputs: a pool without [allocated], and sources built on it. *)
Module Cases.

Definition degraded : ZFSPool.t :=
  ZFSPool.mk "degraded"
    (list_to_map [("size", Scenario.bytes 10); ("freeing", Scenario.bytes 0)]).

Definition zfs_degraded : libzfs.ZFS :=
  {| libzfs.pools := Ok (Scenario.all [Scenario.tank; degraded]);
     libzfs.datasets := Ok (Scenario.all [Scenario.broken]) |}.



End Cases.

(** * Properties *)

(** Membership in a list that is written out. *)
Ltac in_list :=
  repeat first [apply list_elem_of_here | apply list_elem_of_further].

(** ** The model on small inputs *)

Example split_path : Str.split "/" "tank/data/logs" = ["tank"; "data"; "logs"].
Proof. reflexivity. Qed.

Example split_keeps_empty_pieces : Str.split "/" "a//b/" = ["a"; ""; "b"; ""].
Proof. reflexivity. Qed.

Example int_plain : py_int "1700000000" = Ok 1700000000.
Proof. reflexivity. Qed.

Example int_spaces_sign_underscore : py_int " -12_3 " = Ok (-123).
Proof. reflexivity. Qed.

Example int_rejects_dash : is_Ok (py_int "-") = false.
Proof. reflexivity. Qed.

Example int_rejects_double_underscore : is_Ok (py_int "1__2") = false.
Proof. reflexivity. Qed.

Example depth_of_logs : depth Scenario.logs = 2.
Proof. reflexivity. Qed.

(** A pool without datasets gives the three pool samples and no dataset
    sample. *)
Example pool_only :
  map (fun f => (GaugeMetricFamily.name f,
                 map Sample.value (GaugeMetricFamily.samples f)))
      (yielded
         (collect Scenario.collector
            {| libzfs.pools := Ok (Scenario.all [Scenario.tank]);
               libzfs.datasets := Ok (Scenario.all []) |}
            Scenario.clock).1)
  = [("zfs_pool_size_bytes", [VInt 1000]);
     ("zfs_pool_allocated_bytes", [VInt 400]);
     ("zfs_pool_freeing_bytes", [VInt 0]);
     ("zfs_dataset_used_bytes", []);
     ("zfs_dataset_usedbydataset_bytes", []);
     ("zfs_dataset_available_bytes", []);
     ("zfs_dataset_atime_enabled", []);
     ("zfs_dataset_creation_date", []);
     ("zfs_dataset_type", []);
     ("zfs_dataset_volsize_bytes", [])].
Proof. reflexivity. Qed.

(** ** The error monad and the loops *)

Lemma bind_Ok_inv {A B} (r : result A) (f : A → result B) (b : B) :
  r ≫= f = Ok b → ∃ a, r = Ok a ∧ f a = Ok b.
Proof. destruct r as [a|e]; [eauto | discriminate]. Qed.

Lemma for_each_app {A S} (body : A → S → result S) (l1 l2 : list A) (s : S) :
  for_each body (l1 ++ l2) s = for_each body l1 s ≫= for_each body l2.
Proof.
  revert s. induction l1 as [|x l1 IH]; intros s; simpl; [done|].
  destruct (body x s) as [s'|e]; simpl; [apply IH | done].
Qed.

Lemma for_each_map {A B S} (f : A → B) (body : B → S → result S)
    (l : list A) (s : S) :
  for_each body (map f l) s = for_each (fun x => body (f x)) l s.
Proof.
  revert s. induction l as [|x l IH]; intros s; simpl; [done|].
  destruct (body (f x) s); simpl; auto.
Qed.

Lemma for_each_ext {A S} (body body' : A → S → result S) (l : list A) (s : S) :
  (∀ x s, body x s = body' x s) → for_each body l s = for_each body' l s.
Proof.
  intros E. revert s. induction l as [|x l IH]; intros s; simpl; [done|].
  rewrite E. destruct (body' x s); simpl; auto.
Qed.

Lemma run_calls_app (c1 c2 : list Call) (m : Metrics) :
  run_calls (c1 ++ c2) m = run_calls c1 m ≫= run_calls c2.
Proof. apply for_each_app. Qed.

(** A loop whose iterations are sequences of calls is the sequence of all
    the calls. *)
Lemma for_each_calls {A} (calls : A → list Call) (l : list A) (m : Metrics) :
  for_each (fun x => run_calls (calls x)) l m = run_calls (flat_map calls l) m.
Proof.
  revert m. induction l as [|x l IH]; intros m; simpl; [done|].
  rewrite run_calls_app. destruct (run_calls (calls x) m); simpl; auto.
Qed.

Lemma collect_pool_calls (pool : ZFSPool.t) (m : Metrics) :
  collect_pool pool m = run_calls (pool_calls pool) m.
Proof. unfold collect_pool, run_calls, pool_calls. by rewrite for_each_map. Qed.

Lemma collect_dataset_calls (limit : Z) (ds : ZFSDataset.t) (m : Metrics) :
  collect_dataset limit ds m = run_calls (dataset_calls limit ds) m.
Proof.
  unfold collect_dataset, dataset_calls.
  destruct (depth ds >? limit); [done|].
  destruct (depth ds =? limit).
  { unfold run_calls. simpl. fold (dataset_labels ds).
    by destruct (add_metric_at _ _ _ _). }
  rewrite run_calls_app. fold (dataset_labels ds).
  assert (C : ∀ catalog m,
             for_each (fun '(d, meta) datasets_metrics =>
                         add_metric_at datasets_metrics d (dataset_labels ds)
                           (getter meta ds)) catalog m
             = run_calls (catalog_calls catalog ds) m).
  { intros catalog m'. unfold run_calls, catalog_calls. rewrite for_each_map.
    apply for_each_ext. by intros [d meta] s. }
  rewrite !C.
  destruct (String.eqb _ _); [done|]. done.
Qed.

(** ** Ordered dictionaries *)

Lemma Dict_get_Some_keys {V} (d : Dict.t V) (k : string) (v : V) :
  Dict.get d k = Some v → k ∈ Dict.keys d.
Proof.
  induction d as [|[k' v'] d IH]; simpl; [done|].
  destruct (String.eqb_spec k' k) as [->|]; intros H.
  - apply list_elem_of_here.
  - apply list_elem_of_further. auto.
Qed.

Lemma Dict_get_keys {V} (d : Dict.t V) (k : string) :
  k ∈ Dict.keys d → is_Some (Dict.get d k).
Proof.
  induction d as [|[k' v'] d IH]; simpl.
  - intros H. inversion H.
  - destruct (String.eqb_spec k' k) as [->|]; [eauto|].
    intros H. apply IH. inversion H; subst; [done | assumption].
Qed.

Lemma add_rows_unfold (fam : GaugeMetricFamily.t) rows :
  add_rows fam rows =
  GaugeMetricFamily.mk
    (GaugeMetricFamily.name fam) (GaugeMetricFamily.documentation fam)
    (GaugeMetricFamily.labelnames fam)
    (GaugeMetricFamily.samples fam
       ++ map (sample_in (GaugeMetricFamily.name fam)
                 (GaugeMetricFamily.labelnames fam)) rows).
Proof.
  revert fam. induction rows as [|r rows IH]; intros fam.
  - destruct fam. simpl. by rewrite app_nil_r.
  - unfold add_rows in *. simpl. rewrite IH. simpl. by rewrite <- app_assoc.
Qed.

Lemma add_rows_app fam r1 r2 :
  add_rows fam (r1 ++ r2) = add_rows (add_rows fam r1) r2.
Proof. unfold add_rows. by rewrite foldl_app. Qed.

Lemma grow_keys rows (m : Metrics) : Dict.keys (grow rows m) = Dict.keys m.
Proof.
  unfold Dict.keys, grow. rewrite <- list_fmap_compose.
  by apply list_fmap_ext.
Qed.

Lemma grow_grow r1 r2 (m : Metrics) :
  grow r2 (grow r1 m) = grow (fun k => r1 k ++ r2 k) m.
Proof.
  unfold grow. rewrite map_map. apply map_ext. intros [k f]. simpl.
  by rewrite add_rows_app.
Qed.

Lemma grow_ext r1 r2 (m : Metrics) :
  (∀ k, r1 k = r2 k) → grow r1 m = grow r2 m.
Proof. intros E. unfold grow. apply map_ext. intros [k f]. simpl. by rewrite E. Qed.

Lemma grow_absent (k : string) row (m : Metrics) :
  k ∉ Dict.keys m →
  map (fun kf : string * GaugeMetricFamily.t =>
         (kf.1, add_rows kf.2 (if String.eqb kf.1 k then [row] else []))) m = m.
Proof.
  induction m as [|[k' f] m IH]; simpl; [done|].
  intros H. apply not_elem_of_cons in H as [Hne H].
  destruct (String.eqb_spec k' k) as [->|]; [done|].
  rewrite IH by done. done.
Qed.

(** With distinct keys, one [add_metric] on the family at [k] grows the
    dictionary by one row at [k]. *)
Lemma set_add_metric_grow (m : Metrics) k fam labels v :
  NoDup (Dict.keys m) →
  Dict.get m k = Some fam →
  Dict.set k (GaugeMetricFamily.add_metric fam labels v) m
  = grow (fun k' => if String.eqb k' k then [(labels, v)] else []) m.
Proof.
  unfold grow. induction m as [|[k' f] m IH]; simpl; [done|].
  intros ND G. apply NoDup_cons in ND as [Hk ND].
  destruct (String.eqb_spec k' k) as [->|Hne].
  - injection G as ->. by rewrite grow_absent.
  - rewrite IH by done. done.
Qed.

(** ** What a sequence of calls does to a dictionary of families *)

Lemma add_metric_at_Ok (m m' : Metrics) k labels value :
  add_metric_at m k labels value = Ok m' →
  ∃ fam v, Dict.get m k = Some fam ∧ value = Ok v
           ∧ m' = Dict.set k (GaugeMetricFamily.add_metric fam labels v) m.
Proof.
  unfold add_metric_at, Dict.getitem. intros H.
  destruct (Dict.get m k) as [fam|]; [|discriminate].
  destruct value as [v|e]; [|discriminate].
  simpl in H. injection H as <-. eauto.
Qed.

Lemma rows_for_app k c1 c2 : rows_for k (c1 ++ c2) = rows_for k c1 ++ rows_for k c2.
Proof. unfold rows_for. apply flat_map_app. Qed.

Lemma rows_for_flat_map {A} k (calls : A → list Call) (l : list A) :
  rows_for k (flat_map calls l) = flat_map (fun x => rows_for k (calls x)) l.
Proof.
  induction l as [|x l IH]; simpl; [done|]. by rewrite rows_for_app, IH.
Qed.

(** A sequence of calls that does not raise has evaluated every value,
    found every family, and appended the rows family by family. *)
Lemma run_calls_Ok (calls : list Call) (m m' : Metrics) :
  NoDup (Dict.keys m) →
  run_calls calls m = Ok m' →
  m' = grow (fun k => rows_for k calls) m
  ∧ Forall (fun c => is_Ok (call_value c) = true ∧ call_key c ∈ Dict.keys m) calls.
Proof.
  revert m. induction calls as [|c calls IH]; intros m ND H.
  - injection H as <-. split; [|constructor].
    unfold grow. rewrite <- (map_id m) at 1. apply map_ext.
    intros [k f]. simpl. by destruct f.
  - unfold run_calls in H. simpl in H.
    apply bind_Ok_inv in H as (m1 & H1 & H).
    apply add_metric_at_Ok in H1 as (fam & v & G & V & ->).
    rewrite (set_add_metric_grow _ _ _ _ _ ND G) in H.
    apply IH in H as [-> F]; [|by rewrite grow_keys].
    split.
    + rewrite grow_grow. apply grow_ext. intros k. simpl.
      rewrite V, String.eqb_sym. by destruct (String.eqb (call_key c) k).
    + constructor.
      * rewrite V. split; [done|]. by eapply Dict_get_Some_keys.
      * eapply Forall_impl; [exact F|]. intros c' [? ?].
        by rewrite grow_keys in *.
Qed.

Lemma Dict_set_keys {V} (d : Dict.t V) k v :
  k ∈ Dict.keys d → Dict.keys (Dict.set k v d) = Dict.keys d.
Proof.
  induction d as [|[k' v'] d IH]; simpl.
  - intros H. inversion H.
  - destruct (String.eqb_spec k' k) as [->|]; [done|].
    intros H. simpl. f_equal. apply IH. inversion H; subst; [done | assumption].
Qed.

(** Conversely a sequence of calls whose values all evaluate and whose
    families all exist does not raise. *)
Lemma run_calls_total (calls : list Call) (m : Metrics) :
  Forall (fun c => is_Ok (call_value c) = true ∧ call_key c ∈ Dict.keys m) calls →
  ∃ m', run_calls calls m = Ok m'.
Proof.
  revert m. induction calls as [|c calls IH]; intros m F; [by eexists|].
  apply Forall_cons in F as [[V K] F].
  destruct (Dict_get_keys _ _ K) as [fam G].
  destruct (call_value c) as [v|] eqn:Ev; [|discriminate].
  assert (A : add_metric_at m (call_key c) (call_labels c) (call_value c)
              = Ok (Dict.set (call_key c)
                      (GaugeMetricFamily.add_metric fam (call_labels c) v) m)).
  { unfold add_metric_at, Dict.getitem. by rewrite G, Ev. }
  unfold run_calls. simpl. rewrite A. simpl.
  apply IH. eapply Forall_impl; [exact F|]. intros c' [? ?].
  split; [done|]. rewrite Dict_set_keys; [done|]. by eapply Dict_get_Some_keys.
Qed.

(** A call whose value raises makes the whole sequence raise. *)
Lemma run_calls_Raise (calls : list Call) (m : Metrics) c :
  c ∈ calls → is_Ok (call_value c) = false → ∃ e, run_calls calls m = Raise e.
Proof.
  revert m. induction calls as [|c0 calls IH]; intros m Hin Hc.
  - inversion Hin.
  - unfold run_calls. simpl.
    destruct (add_metric_at m (call_key c0) (call_labels c0) (call_value c0))
      as [m1|e] eqn:A; simpl; [|eauto].
    apply elem_of_cons in Hin as [->|Hin]; [|by apply IH].
    apply add_metric_at_Ok in A as (? & v & _ & V & _).
    rewrite V in Hc. discriminate.
Qed.

(** ** The two dictionaries of families *)

Lemma new_pools_metrics_eq :
  new_pools_metrics
  = map (fun p => (p, GaugeMetricFamily.new ("zfs_pool_" +:+ p +:+ "_bytes")
                        ("ZFS Pool " +:+ p +:+ " in bytes") ["pool"]))
        pmetrics.
Proof. reflexivity. Qed.

Lemma new_datasets_metrics_eq :
  new_datasets_metrics
  = map (fun item : string * Meta =>
           (item.1, GaugeMetricFamily.new ("zfs_dataset_" +:+ item.1)
                      (desc item.2) ["pool"; "dataset"]))
        (dsmetrics ++ volmetrics).
Proof. reflexivity. Qed.

Lemma new_pools_metrics_keys : Dict.keys new_pools_metrics = pmetrics.
Proof. reflexivity. Qed.

Lemma new_datasets_metrics_keys :
  Dict.keys new_datasets_metrics = Dict.keys dsmetrics ++ Dict.keys volmetrics.
Proof. reflexivity. Qed.

Lemma pmetrics_NoDup : NoDup pmetrics.
Proof. apply (bool_decide_unpack _). by vm_compute. Qed.

Lemma catalog_NoDup : NoDup (Dict.keys dsmetrics ++ Dict.keys volmetrics).
Proof. apply (bool_decide_unpack _). by vm_compute. Qed.

Lemma values_grow_pools rows :
  Dict.values (grow rows new_pools_metrics)
  = map (fun p => GaugeMetricFamily.mk
                    ("zfs_pool_" +:+ p +:+ "_bytes")
                    ("ZFS Pool " +:+ p +:+ " in bytes") ["pool"]
                    (map (sample_in ("zfs_pool_" +:+ p +:+ "_bytes") ["pool"]) (rows p)))
        pmetrics.
Proof.
  rewrite new_pools_metrics_eq. unfold Dict.values, grow.
  rewrite map_map, <- list_fmap_compose. apply list_fmap_ext.
  intros _ p _. simpl. by rewrite add_rows_unfold.
Qed.

Lemma values_grow_datasets rows :
  Dict.values (grow rows new_datasets_metrics)
  = map (fun item : string * Meta =>
           GaugeMetricFamily.mk
             ("zfs_dataset_" +:+ item.1) (desc item.2) ["pool"; "dataset"]
             (map (sample_in ("zfs_dataset_" +:+ item.1) ["pool"; "dataset"])
                  (rows item.1)))
        (dsmetrics ++ volmetrics).
Proof.
  rewrite new_datasets_metrics_eq. unfold Dict.values, grow.
  rewrite map_map, <- list_fmap_compose. apply list_fmap_ext.
  intros _ item _. simpl. by rewrite add_rows_unfold.
Qed.

(** ** The pass as a whole *)

Lemma for_enum_Ok {A S} (body : A → S → result S) e (s s' : S) :
  for_enum body e s = Ok s' →
  libzfs.failure e = None ∧ for_each body (libzfs.items e) s = Ok s'.
Proof.
  unfold for_enum. intros H. apply bind_Ok_inv in H as (s1 & H1 & H).
  destruct (libzfs.failure e); [discriminate|]. by injection H as <-.
Qed.

Lemma for_enum_failure {A S} (body : A → S → result S) e (s : S) err :
  libzfs.failure e = Some err → ∃ e', for_enum body e s = Raise e'.
Proof.
  unfold for_enum. intros ->. destruct (for_each body (libzfs.items e) s); simpl; eauto.
Qed.

Lemma pools_loop (pools : list ZFSPool.t) (m : Metrics) :
  for_each collect_pool pools m = run_calls (flat_map pool_calls pools) m.
Proof.
  rewrite <- for_each_calls. apply for_each_ext. apply collect_pool_calls.
Qed.

Lemma datasets_loop limit (datasets : list ZFSDataset.t) (m : Metrics) :
  for_each (collect_dataset limit) datasets m
  = run_calls (flat_map (dataset_calls limit) datasets) m.
Proof.
  rewrite <- for_each_calls. apply for_each_ext. apply collect_dataset_calls.
Qed.

(** A pass that gets through the two loops enumerated both collections to
    their end, evaluated every value, and holds the ten series. *)
Lemma gather_Ok limit zfs pools_metrics datasets_metrics :
  gather limit zfs = Ok (pools_metrics, datasets_metrics) →
  ∃ pools datasets,
    libzfs.pools zfs = Ok {| libzfs.items := pools; libzfs.failure := None |}
    ∧ libzfs.datasets zfs = Ok {| libzfs.items := datasets; libzfs.failure := None |}
    ∧ evaluated (flat_map pool_calls pools)
    ∧ evaluated (flat_map (dataset_calls limit) datasets)
    ∧ Dict.values pools_metrics = map (pool_series pools) pmetrics
    ∧ Dict.values datasets_metrics
      = map (dataset_series limit datasets) (dsmetrics ++ volmetrics).
Proof.
  unfold gather. intros H.
  apply bind_Ok_inv in H as ([ps pf] & Hp & H).
  apply bind_Ok_inv in H as ([dss df] & Hd & H).
  apply bind_Ok_inv in H as (pm & Lp & H).
  apply bind_Ok_inv in H as (dm & Ld & H).
  injection H as <- <-.
  apply for_enum_Ok in Lp as [Fp Lp]. apply for_enum_Ok in Ld as [Fd Ld].
  simpl in *. subst pf df.
  rewrite pools_loop in Lp. rewrite datasets_loop in Ld.
  apply run_calls_Ok in Lp as [-> Ep];
    [|rewrite new_pools_metrics_keys; apply pmetrics_NoDup].
  apply run_calls_Ok in Ld as [-> Ed];
    [|rewrite new_datasets_metrics_keys; apply catalog_NoDup].
  exists ps, dss. repeat split; try done.
  - eapply Forall_impl; [exact Ep|]. by intros c [? _].
  - eapply Forall_impl; [exact Ed|]. by intros c [? _].
  - apply values_grow_pools.
  - apply values_grow_datasets.
Qed.

Lemma collect_completed self zfs time g self' :
  collect self zfs time = (g, self') →
  raised g = None →
  ∃ pools datasets,
    libzfs.pools zfs = Ok {| libzfs.items := pools; libzfs.failure := None |}
    ∧ libzfs.datasets zfs = Ok {| libzfs.items := datasets; libzfs.failure := None |}
    ∧ evaluated (flat_map pool_calls pools)
    ∧ evaluated (flat_map (dataset_calls (ZFSCollector.limit self)) datasets)
    ∧ yielded g = map (pool_series pools) pmetrics
                  ++ map (dataset_series (ZFSCollector.limit self) datasets)
                         (dsmetrics ++ volmetrics).
Proof.
  unfold collect. intros H R.
  destruct (gather (ZFSCollector.limit self) zfs) as [[pm dm]|e] eqn:G.
  - injection H as <- <-.
    apply gather_Ok in G as (ps & dss & Hp & Hd & Ep & Ed & Vp & Vd).
    exists ps, dss. repeat split; try done.
    simpl. by rewrite Vp, Vd, app_nil_r.
  - injection H as <- <-. discriminate.
Qed.

(** ** The samples of one dataset in the output *)

Lemma filter_none {A} (P : A → Prop) `{!∀ x, Decision (P x)} (l : list A) :
  Forall (fun x => ¬ P x) l → filter P l = [].
Proof.
  induction 1 as [|x l Hx _ IH]; [done|]. by rewrite filter_cons_False.
Qed.

Lemma filter_all {A} (P : A → Prop) `{!∀ x, Decision (P x)} (l : list A) :
  Forall P l → filter P l = l.
Proof.
  induction 1 as [|x l Hx _ IH]; [done|]. rewrite filter_cons_True by done.
  by rewrite IH.
Qed.

Lemma filter_flat_map {A B} (P : B → Prop) `{!∀ x, Decision (P x)}
    (f : A → list B) (l : list A) :
  filter P (flat_map f l) = flat_map (fun x => filter P (f x)) l.
Proof.
  induction l as [|x l IH]; simpl; [done|]. by rewrite filter_app, IH.
Qed.

(** Filtering the images of a list by a property that is decided by the
    element they come from. *)
Lemma filter_flat_map_by {A B} (P : B → Prop) `{!∀ x, Decision (P x)}
    (Q : A → Prop) `{!∀ x, Decision (Q x)} (f : A → list B) (l : list A) :
  (∀ a b, b ∈ f a → (P b ↔ Q a)) →
  filter P (flat_map f l) = flat_map f (filter Q l).
Proof.
  intros PQ. induction l as [|a l IH]; simpl; [done|].
  rewrite filter_app, IH. destruct (decide (Q a)) as [q|q].
  - rewrite filter_cons_True by done. simpl. f_equal.
    apply filter_all, Forall_forall. intros b Hb. by apply (PQ a b Hb).
  - rewrite filter_cons_False by done.
    rewrite filter_none; [done|]. apply Forall_forall. intros b Hb Pb.
    by apply q, (PQ a b Hb).
Qed.

Lemma dataset_calls_labels limit ds c :
  c ∈ dataset_calls limit ds → call_labels c = dataset_labels ds.
Proof.
  unfold dataset_calls, catalog_calls.
  destruct (depth ds >? limit); [by intros ?%elem_of_nil|].
  destruct (depth ds =? limit).
  { by intros ->%list_elem_of_singleton. }
  intros [Hc|Hc]%elem_of_app; rename Hc into H.
  - destruct (String.eqb _ _); [|by apply elem_of_nil in H].
    apply list_elem_of_fmap in H as (item & -> & _). done.
  - apply list_elem_of_fmap in H as (item & -> & _). done.
Qed.

Lemma rows_for_labels k calls row :
  row ∈ rows_for k calls → ∃ c, c ∈ calls ∧ call_key c = k
                                ∧ call_labels c = row.1 ∧ call_value c = Ok row.2.
Proof.
  unfold rows_for. intros H. apply list_elem_of_In, in_flat_map in H as (c & Hc & H).
  exists c. apply list_elem_of_In in Hc.
  destruct (String.eqb_spec (call_key c) k); [|destruct H].
  destruct (call_value c); [|destruct H].
  destruct H as [<-|[]]. done.
Qed.

Lemma label_dataset_sample name ds v :
  label (sample_in name ["pool"; "dataset"] (dataset_labels ds, v)) "dataset"
  = Some (ZFSDataset.name ds).
Proof. reflexivity. Qed.

Lemma label_pool_sample name row :
  label (sample_in name ["pool"] row) "dataset" = None.
Proof. destruct row as [[|l ls] v]; reflexivity. Qed.

Lemma all_samples_app s1 s2 : all_samples (s1 ++ s2) = all_samples s1 ++ all_samples s2.
Proof. unfold all_samples. apply flat_map_app. Qed.

Lemma all_samples_map {A} (f : A → GaugeMetricFamily.t) (l : list A) :
  all_samples (map f l) = flat_map (fun x => GaugeMetricFamily.samples (f x)) l.
Proof.
  unfold all_samples. induction l as [|x l IH]; simpl; [done|]. by rewrite IH.
Qed.

Lemma flat_map_map {A B C} (f : A → list B) (g : B → C) (l : list A) :
  map g (flat_map f l) = flat_map (fun x => map g (f x)) l.
Proof.
  induction l as [|x l IH]; simpl; [done|]. by rewrite map_app, IH.
Qed.

(** No pool series holds a sample with a [dataset] label. *)
Lemma dataset_samples_pools n pools :
  dataset_samples n (map (pool_series pools) pmetrics) = [].
Proof.
  unfold dataset_samples. apply filter_none, Forall_forall. intros s Hs.
  rewrite all_samples_map in Hs.
  apply list_elem_of_In, in_flat_map in Hs as (p & _ & Hs). simpl in Hs.
  apply in_map_iff in Hs as (row & <- & _). by rewrite label_pool_sample.
Qed.

(** In the series of a catalog row, the samples labelled with the name of an
    identified dataset are the ones that dataset put there. *)
Lemma dataset_samples_series limit datasets ds item :
  identified ds datasets →
  filter (fun s => label s "dataset" = Some (ZFSDataset.name ds))
         (GaugeMetricFamily.samples (dataset_series limit datasets item))
  = own_samples limit ds item.
Proof.
  intros I. unfold dataset_series, own_samples. simpl.
  rewrite rows_for_flat_map, flat_map_map.
  rewrite (filter_flat_map_by _
             (fun d => ZFSDataset.name d = ZFSDataset.name ds)).
  - rewrite I. simpl. by rewrite app_nil_r.
  - intros d s Hs. apply list_elem_of_In, in_map_iff in Hs as ([l v] & <- & Hr).
    apply list_elem_of_In, rows_for_labels in Hr as (c & Hc & _ & L & _).
    apply dataset_calls_labels in Hc. simpl in L. rewrite <- L, Hc.
    rewrite label_dataset_sample. split; congruence.
Qed.

Lemma dataset_samples_yielded limit pools datasets ds :
  identified ds datasets →
  dataset_samples (ZFSDataset.name ds)
    (map (pool_series pools) pmetrics
       ++ map (dataset_series limit datasets) (dsmetrics ++ volmetrics))
  = flat_map (own_samples limit ds) (dsmetrics ++ volmetrics).
Proof.
  intros I.
  pose proof (dataset_samples_pools (ZFSDataset.name ds) pools) as P.
  unfold dataset_samples in *.
  rewrite all_samples_app, filter_app, P, app_nil_l.
  rewrite all_samples_map, filter_flat_map.
  apply flat_map_ext. intros item. by apply dataset_samples_series.
Qed.

(** ** The calls of one dataset, by depth *)

Lemma is_volume_spec ds :
  is_volume ds = true ↔ ZFSDataset.type ds = DatasetType.VOLUME.
Proof. unfold is_volume. by destruct (ZFSDataset.type ds). Qed.

Lemma dataset_calls_beyond limit ds :
  depth ds > limit → dataset_calls limit ds = [].
Proof.
  intros H. unfold dataset_calls.
  destruct (Z.gtb_spec (depth ds) limit); [done | lia].
Qed.

Lemma dataset_calls_summary limit ds :
  depth ds = limit →
  dataset_calls limit ds
  = [{| call_key := "used_bytes";
        call_labels := dataset_labels ds;
        call_value := p ← subscript (ZFSDataset.properties ds) "used"; Ok (parsed p) |}].
Proof.
  intros H. unfold dataset_calls.
  destruct (Z.gtb_spec (depth ds) limit); [lia|].
  destruct (Z.eqb_spec (depth ds) limit); [done | lia].
Qed.

Lemma dataset_calls_full limit ds :
  depth ds < limit →
  dataset_calls limit ds
  = (if is_volume ds then catalog_calls volmetrics ds else [])
    ++ catalog_calls dsmetrics ds.
Proof.
  intros H. unfold dataset_calls.
  destruct (Z.gtb_spec (depth ds) limit); [lia|].
  destruct (Z.eqb_spec (depth ds) limit); [lia | done].
Qed.

Lemma Dict_get_None {V} (d : Dict.t V) k : k ∉ Dict.keys d → Dict.get d k = None.
Proof.
  intros H. destruct (Dict.get d k) eqn:G; [|done].
  by apply Dict_get_Some_keys in G.
Qed.

Lemma Dict_get_elem {V} (d : Dict.t V) (item : string * V) :
  NoDup (Dict.keys d) → item ∈ d → Dict.get d item.1 = Some item.2.
Proof.
  induction d as [|[k v] d IH]; simpl; intros ND H.
  - inversion H.
  - apply NoDup_cons in ND as [Hk ND].
    apply elem_of_cons in H as [->|H]; simpl.
    + by rewrite String.eqb_refl.
    + destruct (String.eqb_spec k item.1) as [->|]; [|by apply IH].
      exfalso. apply Hk. unfold Dict.keys. apply list_elem_of_fmap. by exists item.
Qed.

Lemma rows_for_absent (catalog : Dict.t Meta) ds k :
  k ∉ Dict.keys catalog → rows_for k (catalog_calls catalog ds) = [].
Proof.
  induction catalog as [|[k' m] catalog IH]; simpl; [done|].
  intros [Hne H]%not_elem_of_cons.
  destruct (String.eqb_spec k' k); [congruence|]. by apply IH.
Qed.

(** The rows a catalog puts into the family [k]: those of the one catalog
    row with that key. *)
Lemma rows_for_catalog (catalog : Dict.t Meta) ds k :
  NoDup (Dict.keys catalog) →
  rows_for k (catalog_calls catalog ds)
  = match Dict.get catalog k with
    | Some m => result_rows ds (getter m ds)
    | None => []
    end.
Proof.
  induction catalog as [|[k' m] catalog IH]; simpl; [done|].
  intros [Hk ND]%NoDup_cons.
  destruct (String.eqb_spec k' k) as [->|]; [|by apply IH].
  rewrite rows_for_absent by done. by rewrite app_nil_r.
Qed.

Lemma evaluated_app c1 c2 : evaluated (c1 ++ c2) ↔ evaluated c1 ∧ evaluated c2.
Proof. apply Forall_app. Qed.

Lemma evaluated_catalog (catalog : Dict.t Meta) ds :
  evaluated (catalog_calls catalog ds)
  ↔ Forall (fun item => is_Ok (getter item.2 ds) = true) catalog.
Proof. unfold evaluated, catalog_calls. by rewrite Forall_fmap. Qed.

Lemma evaluated_elem {A} (calls : A → list Call) (l : list A) x :
  evaluated (flat_map calls l) → x ∈ l → evaluated (calls x).
Proof.
  intros E Hx. unfold evaluated in *. rewrite Forall_flat_map in E.
  rewrite Forall_forall in E. by apply E.
Qed.

Lemma identified_elem ds datasets : identified ds datasets → ds ∈ datasets.
Proof.
  intros I. assert (H : ds ∈ [ds]) by apply list_elem_of_here.
  rewrite <- I in H. by apply list_elem_of_filter in H as [_ H].
Qed.

Lemma dsmetrics_NoDup : NoDup (Dict.keys dsmetrics).
Proof. pose proof catalog_NoDup as H. by apply NoDup_app in H as (? & _ & _). Qed.

Lemma volmetrics_NoDup : NoDup (Dict.keys volmetrics).
Proof. pose proof catalog_NoDup as H. by apply NoDup_app in H as (_ & _ & ?). Qed.

Lemma dsmetrics_not_vol (item : string * Meta) :
  item ∈ dsmetrics → item.1 ∉ Dict.keys volmetrics.
Proof.
  pose proof catalog_NoDup as H. apply NoDup_app in H as (_ & D & _).
  intros Hi. apply D. unfold Dict.keys. apply list_elem_of_fmap. by exists item.
Qed.

Lemma volmetrics_not_ds (item : string * Meta) :
  item ∈ volmetrics → item.1 ∉ Dict.keys dsmetrics.
Proof.
  pose proof catalog_NoDup as H. apply NoDup_app in H as (_ & D & _).
  intros Hi Hk. apply (D _ Hk). unfold Dict.keys. apply list_elem_of_fmap.
  by exists item.
Qed.

Lemma row_sample_intro ds (item : string * Meta) v :
  getter item.2 ds = Ok v →
  row_sample ds item
    (sample_in ("zfs_dataset_" +:+ item.1) ["pool"; "dataset"] (dataset_labels ds, v)).
Proof. intros G. by repeat split. Qed.

(** At full detail a row of the dataset catalog gets one sample. *)
Lemma own_samples_full_ds limit ds item :
  depth ds < limit → evaluated (dataset_calls limit ds) → item ∈ dsmetrics →
  ∃ s, own_samples limit ds item = [s] ∧ row_sample ds item s.
Proof.
  intros D E Hi. rewrite dataset_calls_full in E by done.
  apply evaluated_app in E as [_ E]. rewrite evaluated_catalog in E.
  rewrite Forall_forall in E. specialize (E item Hi).
  destruct (getter item.2 ds) as [v|] eqn:G; [|discriminate].
  exists (sample_in ("zfs_dataset_" +:+ item.1) ["pool"; "dataset"]
            (dataset_labels ds, v)).
  split; [|by apply row_sample_intro].
  unfold own_samples. rewrite dataset_calls_full, rows_for_app by done.
  rewrite (rows_for_catalog dsmetrics) by apply dsmetrics_NoDup.
  rewrite (Dict_get_elem _ _ dsmetrics_NoDup Hi), G.
  destruct (is_volume ds); [|done].
  by rewrite rows_for_absent by by apply dsmetrics_not_vol.
Qed.

(** At full detail a row of the volume catalog gets one sample from a
    volume and none from any other dataset. *)
Lemma own_samples_full_vol limit ds item :
  depth ds < limit → evaluated (dataset_calls limit ds) → item ∈ volmetrics →
  if is_volume ds
  then ∃ s, own_samples limit ds item = [s] ∧ row_sample ds item s
  else own_samples limit ds item = [].
Proof.
  intros D E Hi. rewrite dataset_calls_full in E by done.
  apply evaluated_app in E as [E _].
  unfold own_samples. rewrite dataset_calls_full, rows_for_app by done.
  rewrite (rows_for_absent dsmetrics) by by apply volmetrics_not_ds.
  destruct (is_volume ds); [|done].
  rewrite evaluated_catalog in E. rewrite Forall_forall in E.
  specialize (E item Hi).
  destruct (getter item.2 ds) as [v|] eqn:G; [|discriminate].
  exists (sample_in ("zfs_dataset_" +:+ item.1) ["pool"; "dataset"]
            (dataset_labels ds, v)).
  split; [|by apply row_sample_intro].
  rewrite (rows_for_catalog volmetrics) by apply volmetrics_NoDup.
  by rewrite (Dict_get_elem _ _ volmetrics_NoDup Hi), G.
Qed.

Lemma flat_map_singletons {A B} (f : A → list B) (R : A → B → Prop) (l : list A) :
  Forall (fun x => ∃ y, f x = [y] ∧ R x y) l → Forall2 R l (flat_map f l).
Proof.
  induction 1 as [|x l (y & Hx & Hy) _ IH]; simpl; [constructor|].
  rewrite Hx. by constructor.
Qed.

Lemma flat_map_nils {A B} (f : A → list B) (l : list A) :
  Forall (fun x => f x = []) l → flat_map f l = [].
Proof. induction 1 as [|x l Hx _ IH]; simpl; [done|]. by rewrite Hx. Qed.

(** The samples of a dataset at full detail, row by row. *)
Lemma own_samples_full limit ds :
  depth ds < limit → evaluated (dataset_calls limit ds) →
  Forall2 (row_sample ds)
    (dsmetrics ++ (if is_volume ds then volmetrics else []))
    (flat_map (own_samples limit ds) (dsmetrics ++ volmetrics)).
Proof.
  intros D E. rewrite flat_map_app. apply Forall2_app.
  - apply flat_map_singletons, Forall_forall. intros item Hi.
    by apply own_samples_full_ds.
  - destruct (is_volume ds) eqn:V.
    + apply flat_map_singletons, Forall_forall. intros item Hi.
      pose proof (own_samples_full_vol limit ds item D E Hi) as H.
      by rewrite V in H.
    + rewrite flat_map_nils; [constructor|]. apply Forall_forall. intros item Hi.
      pose proof (own_samples_full_vol limit ds item D E Hi) as H.
      by rewrite V in H.
Qed.

(** The samples of a dataset at summary level. *)
Lemma own_samples_summary limit ds :
  depth ds = limit → evaluated (dataset_calls limit ds) →
  ∃ p, ZFSDataset.properties ds !! "used" = Some p
       ∧ flat_map (own_samples limit ds) (dsmetrics ++ volmetrics)
         = [Sample.mk "zfs_dataset_used_bytes"
              [("pool", ZFSPool.name (ZFSDataset.pool ds));
               ("dataset", ZFSDataset.name ds)]
              (parsed p)].
Proof.
  intros D E. unfold own_samples. rewrite dataset_calls_summary in * by done.
  apply Forall_cons in E as [E _]. simpl in E. unfold subscript in *.
  destruct (ZFSDataset.properties ds !! "used") as [p|]; [|discriminate].
  exists p. split; [done|]. reflexivity.
Qed.

Lemma own_samples_beyond limit ds :
  depth ds > limit → flat_map (own_samples limit ds) (dsmetrics ++ volmetrics) = [].
Proof.
  intros D. apply flat_map_nils, Forall_forall. intros item _.
  unfold own_samples. by rewrite dataset_calls_beyond.
Qed.

(** ** The samples of one dataset in one series *)

Lemma append_inj_r (s a b : string) : s +:+ a = s +:+ b → a = b.
Proof. induction s as [|c s IH]; simpl; [done|]. intros [= H]. auto. Qed.

Lemma Dict_get_Some_elem {V} (d : Dict.t V) k v :
  Dict.get d k = Some v → (k, v) ∈ d.
Proof.
  induction d as [|[k' v'] d IH]; simpl; [done|].
  destruct (String.eqb_spec k' k) as [->|].
  - intros [= ->]. apply list_elem_of_here.
  - intros H. apply list_elem_of_further. auto.
Qed.

Lemma filter_key {V} (d : list (string * V)) k v :
  NoDup (Dict.keys d) → Dict.get d k = Some v →
  filter (fun item : string * V => item.1 = k) d = [(k, v)].
Proof.
  induction d as [|[k' v'] d IH]; intros ND G; [done|].
  simpl in ND, G. apply NoDup_cons in ND as [Hk ND].
  destruct (String.eqb_spec k' k) as [->|Hne].
  - injection G as ->. rewrite filter_cons_True by done. f_equal.
    apply filter_none, Forall_forall. intros item Hi E. apply Hk.
    unfold Dict.keys. apply list_elem_of_fmap. by exists item.
  - rewrite filter_cons_False by done. by apply IH.
Qed.

Lemma catalog_get_app k :
  Dict.get (dsmetrics ++ volmetrics) k
  = match Dict.get dsmetrics k with
    | Some m => Some m
    | None => Dict.get volmetrics k
    end.
Proof.
  generalize dsmetrics as d. induction d as [|[k' m] d IH]; simpl; [done|].
  by destruct (String.eqb k' k).
Qed.

(** In the output of a completed pass, the samples of an identified dataset
    in the series of the catalog row [k] are the dataset's own. *)
Lemma dataset_samples_in_key limit pools datasets ds k meta :
  identified ds datasets →
  Dict.get (dsmetrics ++ volmetrics) k = Some meta →
  dataset_samples_in ("zfs_dataset_" +:+ k) (ZFSDataset.name ds)
    (map (pool_series pools) pmetrics
       ++ map (dataset_series limit datasets) (dsmetrics ++ volmetrics))
  = own_samples limit ds (k, meta).
Proof.
  intros I G. unfold dataset_samples_in.
  rewrite dataset_samples_yielded by done.
  rewrite (filter_flat_map_by _ (fun item : string * Meta => item.1 = k)).
  - rewrite (filter_key _ k meta); [simpl; by rewrite app_nil_r| |done].
    unfold Dict.keys. rewrite fmap_app. apply catalog_NoDup.
  - intros item s Hs. unfold own_samples in Hs.
    apply list_elem_of_In, in_map_iff in Hs as (row & <- & _). simpl.
    split; [apply append_inj_r | by intros ->].
Qed.

(** ** Properties a pass cannot do without *)

Lemma is_Ok_bind_subscript {A} (d : gmap string ZFSProperty) k
    (f : ZFSProperty → result A) :
  is_Ok (subscript d k ≫= f) = true → ∃ p, d !! k = Some p ∧ is_Ok (f p) = true.
Proof. unfold subscript. destruct (d !! k) as [p|]; [eauto | discriminate]. Qed.


(** ** Depth *)

Lemma split_length sep s : length (Str.split sep s) = S (Str.count sep s).
Proof.
  induction s as [|c s IH]; simpl; [done|].
  destruct (Ascii.eqb c sep); simpl; [by rewrite IH|].
  destruct (Str.split sep s); simpl in *; [discriminate | done].
Qed.

(** The depth of a dataset is the number of slashes in its name. *)
Lemma depth_count ds : depth ds = Z.of_nat (Str.count "/" (ZFSDataset.name ds)).
Proof. unfold depth. rewrite split_length. lia. Qed.

Lemma depth_nonneg ds : 0 <= depth ds.
Proof. rewrite depth_count. lia. Qed.

(** ** When a pass completes *)

Lemma Dict_keys_elem {V} (d : Dict.t V) (item : string * V) :
  item ∈ d → item.1 ∈ Dict.keys d.
Proof. intros H. unfold Dict.keys. apply list_elem_of_fmap. by exists item. Qed.

Lemma pool_calls_keys pool c : c ∈ pool_calls pool → call_key c ∈ pmetrics.
Proof.
  unfold pool_calls. intros H. by apply list_elem_of_fmap in H as (p & -> & ?).
Qed.

Lemma catalog_calls_keys catalog ds c :
  c ∈ catalog_calls catalog ds → call_key c ∈ Dict.keys catalog.
Proof.
  unfold catalog_calls. intros H. apply list_elem_of_fmap in H as (item & -> & ?).
  by apply Dict_keys_elem.
Qed.

Lemma dataset_calls_keys limit ds c :
  c ∈ dataset_calls limit ds →
  call_key c ∈ Dict.keys dsmetrics ++ Dict.keys volmetrics.
Proof.
  unfold dataset_calls.
  destruct (depth ds >? limit); [by intros ?%elem_of_nil|].
  destruct (depth ds =? limit).
  { intros ->%list_elem_of_singleton. apply list_elem_of_here. }
  intros [Hc|Hc]%elem_of_app; apply elem_of_app.
  - right. destruct (String.eqb _ _); [|by apply elem_of_nil in Hc].
    by apply catalog_calls_keys in Hc.
  - left. by apply catalog_calls_keys in Hc.
Qed.

(** A pool whose three properties are present raises nothing. *)
Lemma pool_evaluated pool :
  (∀ k, k ∈ pmetrics → is_Some (ZFSPool.properties pool !! k)) →
  evaluated (pool_calls pool).
Proof.
  intros H. unfold evaluated, pool_calls. rewrite Forall_fmap.
  apply Forall_forall. intros k Hk. simpl. unfold subscript.
  by destruct (H k Hk) as [p ->].
Qed.


Lemma evaluated_flat_map {A} (calls : A → list Call) (l : list A) :
  (∀ x, x ∈ l → evaluated (calls x)) → evaluated (flat_map calls l).
Proof.
  intros H. unfold evaluated. rewrite Forall_flat_map. apply Forall_forall.
  intros x Hx. by apply H.
Qed.

(** A pass over a source that enumerates to its end and whose calls all
    evaluate completes. *)
Lemma collect_evaluated self zfs time pools datasets :
  libzfs.pools zfs = Ok {| libzfs.items := pools; libzfs.failure := None |} →
  libzfs.datasets zfs = Ok {| libzfs.items := datasets; libzfs.failure := None |} →
  evaluated (flat_map pool_calls pools) →
  evaluated (flat_map (dataset_calls (ZFSCollector.limit self)) datasets) →
  raised (collect self zfs time).1 = None.
Proof.
  intros Hp Hd Ep Ed. unfold collect, gather.
  rewrite Hp, Hd. simpl. unfold for_enum. simpl.
  rewrite pools_loop, datasets_loop.
  destruct (run_calls_total (flat_map pool_calls pools) new_pools_metrics)
    as [pm ->].
  { unfold evaluated in Ep. rewrite Forall_forall in Ep.
    apply Forall_forall. intros c Hc. split; [by apply Ep|].
    apply list_elem_of_In, in_flat_map in Hc as (pool & _ & Hc).
    apply list_elem_of_In in Hc.
    rewrite new_pools_metrics_keys. by eapply pool_calls_keys. }
  simpl.
  destruct (run_calls_total
              (flat_map (dataset_calls (ZFSCollector.limit self)) datasets)
              new_datasets_metrics) as [dm ->]; [|done].
  unfold evaluated in Ed. rewrite Forall_forall in Ed.
  apply Forall_forall. intros c Hc. split; [by apply Ed|].
  apply list_elem_of_In, in_flat_map in Hc as (ds & _ & Hc).
  apply list_elem_of_In in Hc.
  rewrite new_datasets_metrics_keys. by eapply dataset_calls_keys.
Qed.





(** ** Passes that raise, and the exclusion set *)

Lemma collect_Raise self zfs time err :
  gather (ZFSCollector.limit self) zfs = Raise err →
  collect self zfs time = ({| yielded := []; raised := Some err |}, self).
Proof. intros G. unfold collect. by rewrite G. Qed.

(** The output of a pass does not depend on the exclusion set. *)
Lemma collect_ignores_exclude exclude exclude' limit summary zfs time :
  (collect (ZFSCollector.mk exclude limit summary) zfs time).1
  = (collect (ZFSCollector.mk exclude' limit summary) zfs time).1.
Proof. unfold collect. simpl. by destruct (gather limit zfs) as [[? ?]|?]. Qed.

(** ** Single rows of the catalogs *)


Lemma type_getter :
  ∃ meta, Dict.get dsmetrics "type" = Some meta
    ∧ ∀ ds, getter meta ds
            = (p ← subscript (ZFSDataset.properties ds) "type";
               Ok (VInt (dict_get_default
                           [("filesystem", 0); ("volume", 1); ("snapshot", 2);
                            ("bookmark", 3)]
                           (parsed p) (-1)))).
Proof. eexists. split; reflexivity. Qed.

Lemma volsize_getter :
  ∃ meta, Dict.get volmetrics "volsize_bytes" = Some meta
    ∧ ∀ ds, getter meta ds
            = (p ← subscript (ZFSDataset.properties ds) "volsize"; Ok (parsed p)).
Proof. eexists. split; reflexivity. Qed.

Lemma sample_eta (s : Sample.t) name labels v :
  Sample.name s = name → Sample.labels s = labels → Sample.value s = v →
  s = Sample.mk name labels v.
Proof. destruct s. simpl. by intros -> -> ->. Qed.

(** ** Names and labels of the series *)

Lemma pool_calls_labels pool c :
  c ∈ pool_calls pool → call_labels c = [ZFSPool.name pool].
Proof.
  unfold pool_calls. intros H. by apply list_elem_of_fmap in H as (p & -> & _).
Qed.

Lemma series_names self zfs time g self' :
  collect self zfs time = (g, self') →
  raised g = None →
  map (fun f => (GaugeMetricFamily.name f, GaugeMetricFamily.labelnames f))
      (yielded g)
  = [("zfs_pool_size_bytes", ["pool"]);
     ("zfs_pool_allocated_bytes", ["pool"]);
     ("zfs_pool_freeing_bytes", ["pool"]);
     ("zfs_dataset_used_bytes", ["pool"; "dataset"]);
     ("zfs_dataset_usedbydataset_bytes", ["pool"; "dataset"]);
     ("zfs_dataset_available_bytes", ["pool"; "dataset"]);
     ("zfs_dataset_atime_enabled", ["pool"; "dataset"]);
     ("zfs_dataset_creation_date", ["pool"; "dataset"]);
     ("zfs_dataset_type", ["pool"; "dataset"]);
     ("zfs_dataset_volsize_bytes", ["pool"; "dataset"])].
Proof.
  intros C R. apply collect_completed in C as (ps & dss & _ & _ & _ & _ & ->);
    [|done].
  rewrite map_app, !map_map. reflexivity.
Qed.

Lemma pool_series_sample pools p s :
  s ∈ GaugeMetricFamily.samples (pool_series pools p) →
  Sample.name s = GaugeMetricFamily.name (pool_series pools p)
  ∧ (Sample.labels s).*1 = ["pool"].
Proof.
  simpl. intros Hs. apply list_elem_of_fmap in Hs as ([l v] & -> & Hr).
  apply rows_for_labels in Hr as (c & Hc & _ & L & _).
  apply list_elem_of_In, in_flat_map in Hc as (pool & _ & Hc).
  apply list_elem_of_In, pool_calls_labels in Hc. simpl in L.
  rewrite <- L, Hc. done.
Qed.

Lemma dataset_series_sample limit datasets item s :
  s ∈ GaugeMetricFamily.samples (dataset_series limit datasets item) →
  Sample.name s = GaugeMetricFamily.name (dataset_series limit datasets item)
  ∧ (Sample.labels s).*1 = ["pool"; "dataset"].
Proof.
  simpl. intros Hs. apply list_elem_of_fmap in Hs as ([l v] & -> & Hr).
  apply rows_for_labels in Hr as (c & Hc & _ & L & _).
  apply list_elem_of_In, in_flat_map in Hc as (ds & _ & Hc).
  apply list_elem_of_In, dataset_calls_labels in Hc. simpl in L.
  rewrite <- L, Hc. done.
Qed.

(** * The claims *)

(** ** Completed passes

    A pass of the collector [self] over the source [zfs], with the clock
    [time], that the consumer saw through without an exception; [ds] is one
    of the datasets the source enumerated, identified by its name. *)

Section CompletedPass.

Context (self : ZFSCollector.t) (zfs : libzfs.ZFS) (time : nat → Q).
Context (g : Generator) (self' : ZFSCollector.t).
Context (datasets : list ZFSDataset.t) (ds : ZFSDataset.t).

Hypothesis completed : collect self zfs time = (g, self').
Hypothesis no_exception : raised g = None.
Hypothesis enumerated :
  libzfs.datasets zfs = Ok {| libzfs.items := datasets; libzfs.failure := None |}.
Hypothesis named : identified ds datasets.

Lemma yielded_series :
  ∃ pools,
    evaluated (dataset_calls (ZFSCollector.limit self) ds)
    ∧ yielded g = map (pool_series pools) pmetrics
                  ++ map (dataset_series (ZFSCollector.limit self) datasets)
                         (dsmetrics ++ volmetrics).
Proof using completed no_exception enumerated named.
  destruct (collect_completed _ _ _ _ _ completed no_exception)
    as (ps & dss & _ & Hd & _ & E & Y).
  rewrite enumerated in Hd. injection Hd as <-.
  exists ps. split; [|done].
  exact (evaluated_elem _ _ _ E (identified_elem _ _ named)).
Qed.

(** C1. For every depth limit [L] and every dataset of a completed pass:
    the output holds no sample for the dataset when its depth (path segments
    minus one) exceeds [L]; exactly one, the [used_bytes] gauge labelled
    [(pool, dataset)], when its depth is [L]; and one sample per row of the
    dataset catalog, followed by the volume catalog when the dataset is a
    volume, when its depth is below [L]. *)
Theorem C1_depth_policy :
  depth ds = Z.of_nat (length (Str.split "/" (ZFSDataset.name ds))) - 1
  ∧ (depth ds > ZFSCollector.limit self →
     dataset_samples (ZFSDataset.name ds) (yielded g) = [])
  ∧ (depth ds = ZFSCollector.limit self →
     ∃ p, ZFSDataset.properties ds !! "used" = Some p
          ∧ dataset_samples (ZFSDataset.name ds) (yielded g)
            = [Sample.mk "zfs_dataset_used_bytes"
                 [("pool", ZFSPool.name (ZFSDataset.pool ds));
                  ("dataset", ZFSDataset.name ds)]
                 (parsed p)])
  ∧ (depth ds < ZFSCollector.limit self →
     Forall2 (row_sample ds)
       (dsmetrics ++ (if is_volume ds then volmetrics else []))
       (dataset_samples (ZFSDataset.name ds) (yielded g))).
Proof using completed no_exception enumerated named.
  destruct yielded_series as (ps & Eds & ->).
  rewrite dataset_samples_yielded by done.
  split; [done|]. split; [|split].
  - apply own_samples_beyond.
  - intros D. by apply own_samples_summary.
  - intros D. by apply own_samples_full.
Qed.

(** The sample of a dataset at full detail in the series of a row of the
    dataset catalog. *)
Lemma full_detail_sample k meta :
  depth ds < ZFSCollector.limit self →
  Dict.get dsmetrics k = Some meta →
  ∃ v, getter meta ds = Ok v
       ∧ dataset_samples_in ("zfs_dataset_" +:+ k) (ZFSDataset.name ds) (yielded g)
         = [Sample.mk ("zfs_dataset_" +:+ k)
              [("pool", ZFSPool.name (ZFSDataset.pool ds));
               ("dataset", ZFSDataset.name ds)] v].
Proof using completed no_exception enumerated named.
  intros D G. destruct yielded_series as (ps & Eds & ->).
  rewrite (dataset_samples_in_key _ _ _ _ k meta named)
    by (by rewrite catalog_get_app, G).
  destruct (own_samples_full_ds _ _ (k, meta) D Eds) as (s & -> & N & L & V).
  { by apply Dict_get_Some_elem. }
  exists (Sample.value s). split; [done|]. f_equal. by apply sample_eta.
Qed.


(** C6. In a completed pass a dataset at full detail has exactly one [type]
    sample. Its value is 0, 1, 2 or 3 when the parsed [type] property is
    [filesystem], [volume], [snapshot] or [bookmark], and -1 for every other
    value. *)
Theorem C6_type_code :
  depth ds < ZFSCollector.limit self →
  ∃ p z, ZFSDataset.properties ds !! "type" = Some p
    ∧ dataset_samples_in "zfs_dataset_type" (ZFSDataset.name ds) (yielded g)
      = [Sample.mk "zfs_dataset_type"
           [("pool", ZFSPool.name (ZFSDataset.pool ds));
            ("dataset", ZFSDataset.name ds)] (VInt z)]
    ∧ (parsed p = VStr "filesystem" → z = 0)
    ∧ (parsed p = VStr "volume" → z = 1)
    ∧ (parsed p = VStr "snapshot" → z = 2)
    ∧ (parsed p = VStr "bookmark" → z = 3)
    ∧ (parsed p ∉ [VStr "filesystem"; VStr "volume"; VStr "snapshot";
                   VStr "bookmark"] → z = -1).
Proof using completed no_exception enumerated named.
  intros D. destruct type_getter as (meta & G & Hg).
  destruct (full_detail_sample _ _ D G) as (v & V & S).
  rewrite Hg in V. unfold subscript in V.
  destruct (ZFSDataset.properties ds !! "type") as [p|]; [|discriminate].
  simpl in V. injection V as <-.
  exists p. eexists. split; [done|]. split; [exact S|].
  repeat split; try (by intros ->).
  intros N. destruct (parsed p) as [| | |s]; try done.
  unfold dict_get_default. cbn [Dict.get].
  repeat match goal with
         | |- context [String.eqb ?a s] => destruct (String.eqb_spec a s) as [<-|_]
         end;
    try done; exfalso; apply N;
    in_list.
Qed.

(** C7. In a completed pass a dataset that is not a volume has no
    [volsize_bytes] sample, whatever its depth; a dataset at or beyond the
    limit has none either; a volume at full detail has exactly one, the
    parsed [volsize]. *)
Theorem C7_volsize_only_full_volume :
  (ZFSDataset.type ds ≠ DatasetType.VOLUME →
   dataset_samples_in "zfs_dataset_volsize_bytes" (ZFSDataset.name ds) (yielded g)
   = [])
  ∧ (depth ds >= ZFSCollector.limit self →
     dataset_samples_in "zfs_dataset_volsize_bytes" (ZFSDataset.name ds) (yielded g)
     = [])
  ∧ (ZFSDataset.type ds = DatasetType.VOLUME →
     depth ds < ZFSCollector.limit self →
     ∃ p, ZFSDataset.properties ds !! "volsize" = Some p
          ∧ dataset_samples_in "zfs_dataset_volsize_bytes" (ZFSDataset.name ds)
              (yielded g)
            = [Sample.mk "zfs_dataset_volsize_bytes"
                 [("pool", ZFSPool.name (ZFSDataset.pool ds));
                  ("dataset", ZFSDataset.name ds)]
                 (parsed p)]).
Proof using completed no_exception enumerated named.
  destruct volsize_getter as (meta & G & Hg).
  destruct yielded_series as (ps & Eds & ->).
  pose proof (dataset_samples_in_key (ZFSCollector.limit self) ps datasets ds
                "volsize_bytes" meta named) as K.
  rewrite catalog_get_app in K. specialize (K G).
  change ("zfs_dataset_" +:+ "volsize_bytes") with "zfs_dataset_volsize_bytes" in K.
  rewrite K. clear K.
  assert (Hi : ("volsize_bytes", meta) ∈ volmetrics) by by apply Dict_get_Some_elem.
  assert (Beyond : depth ds >= ZFSCollector.limit self →
                   own_samples (ZFSCollector.limit self) ds ("volsize_bytes", meta)
                   = []).
  { intros D. unfold own_samples.
    destruct (decide (depth ds = ZFSCollector.limit self)) as [D'|D'].
    - by rewrite dataset_calls_summary.
    - by rewrite dataset_calls_beyond by lia. }
  split; [|split; [done|]].
  - intros T.
    destruct (decide (depth ds < ZFSCollector.limit self)) as [D|D];
      [|apply Beyond; lia].
    pose proof (own_samples_full_vol _ _ _ D Eds Hi) as H.
    destruct (is_volume ds) eqn:V; [|done].
    by apply is_volume_spec in V.
  - intros T D.
    pose proof (own_samples_full_vol _ _ _ D Eds Hi) as H.
    apply is_volume_spec in T. rewrite T in H.
    destruct H as (s & -> & N & L & V). simpl in V. rewrite Hg in V.
    unfold subscript in V.
    destruct (ZFSDataset.properties ds !! "volsize") as [p|]; [|discriminate].
    exists p. split; [done|]. f_equal. apply sample_eta; [done..|].
    simpl in V. congruence.
Qed.

(** C8. A completed pass yields the three pool series
    [zfs_pool_size_bytes], [zfs_pool_allocated_bytes] and
    [zfs_pool_freeing_bytes] with the single label [pool], and the
    [zfs_dataset_<suffix>] series of the catalogs with the labels [pool] and
    [dataset]; every sample carries the name of its series and exactly the
    label names of its series. *)
Theorem C8_naming_contract :
  map (fun f => (GaugeMetricFamily.name f, GaugeMetricFamily.labelnames f))
      (yielded g)
  = [("zfs_pool_size_bytes", ["pool"]);
     ("zfs_pool_allocated_bytes", ["pool"]);
     ("zfs_pool_freeing_bytes", ["pool"]);
     ("zfs_dataset_used_bytes", ["pool"; "dataset"]);
     ("zfs_dataset_usedbydataset_bytes", ["pool"; "dataset"]);
     ("zfs_dataset_available_bytes", ["pool"; "dataset"]);
     ("zfs_dataset_atime_enabled", ["pool"; "dataset"]);
     ("zfs_dataset_creation_date", ["pool"; "dataset"]);
     ("zfs_dataset_type", ["pool"; "dataset"]);
     ("zfs_dataset_volsize_bytes", ["pool"; "dataset"])]
  ∧ ∀ f s, f ∈ yielded g → s ∈ GaugeMetricFamily.samples f →
           Sample.name s = GaugeMetricFamily.name f
           ∧ (Sample.labels s).*1 = GaugeMetricFamily.labelnames f.
Proof using completed no_exception.
  split; [by eapply series_names|].
  destruct (collect_completed _ _ _ _ _ completed no_exception)
    as (ps & dss & _ & _ & _ & _ & ->).
  intros f s [Hf|Hf]%elem_of_app Hs.
  - apply list_elem_of_fmap in Hf as (p & -> & _). by apply pool_series_sample.
  - apply list_elem_of_fmap in Hf as (item & -> & _).
    by apply dataset_series_sample.
Qed.


(** C10. Every completed pass yields the same ten series, three for the
    pools and seven for the datasets (the six rows of the dataset catalog,
    then [volsize_bytes]), each once and in this order; the [volumes_metrics]
    dictionary adds none. A series is yielded even when it is empty: over a
    hierarchy without pools and datasets all ten are yielded without
    samples. *)
Theorem C10_fixed_series :
  map GaugeMetricFamily.name (yielded g)
  = ["zfs_pool_size_bytes"; "zfs_pool_allocated_bytes"; "zfs_pool_freeing_bytes";
     "zfs_dataset_used_bytes"; "zfs_dataset_usedbydataset_bytes";
     "zfs_dataset_available_bytes"; "zfs_dataset_atime_enabled";
     "zfs_dataset_creation_date"; "zfs_dataset_type";
     "zfs_dataset_volsize_bytes"]
  ∧ NoDup (map GaugeMetricFamily.name (yielded g))
  ∧ length (yielded g) = 10%nat
  ∧ (libzfs.pools zfs = Ok {| libzfs.items := []; libzfs.failure := None |} →
     libzfs.datasets zfs = Ok {| libzfs.items := []; libzfs.failure := None |} →
     Forall (fun f => GaugeMetricFamily.samples f = []) (yielded g)).
Proof using completed no_exception.
  assert (N : map GaugeMetricFamily.name (yielded g)
              = ["zfs_pool_size_bytes"; "zfs_pool_allocated_bytes";
                 "zfs_pool_freeing_bytes"; "zfs_dataset_used_bytes";
                 "zfs_dataset_usedbydataset_bytes"; "zfs_dataset_available_bytes";
                 "zfs_dataset_atime_enabled"; "zfs_dataset_creation_date";
                 "zfs_dataset_type"; "zfs_dataset_volsize_bytes"]).
  { pose proof (series_names _ _ _ _ _ completed no_exception) as H.
    apply (f_equal (map fst)) in H. rewrite map_map in H. exact H. }
  split; [exact N|]. split; [|split].
  - rewrite N. apply (bool_decide_unpack _). by vm_compute.
  - apply (f_equal length) in N. by rewrite length_map in N.
  - intros Hp Hd.
    destruct (collect_completed _ _ _ _ _ completed no_exception)
      as (ps & dss & Hp' & Hd' & _ & _ & ->).
    rewrite Hp in Hp'. injection Hp' as <-.
    rewrite Hd in Hd'. injection Hd' as <-.
    apply Forall_forall. intros f [Hf|Hf]%elem_of_app.
    + by apply list_elem_of_fmap in Hf as (p & -> & _).
    + by apply list_elem_of_fmap in Hf as (item & -> & _).
Qed.

End CompletedPass.

(** ** The completed pass over the hierarchy of [Scenario] *)

Lemma C1_depth_policy_witness :
  dataset_samples "tank/data/logs/old"
    (yielded (collect Scenario.collector Scenario.zfs Scenario.clock).1) = []
  ∧ dataset_samples "tank/data/logs"
      (yielded (collect Scenario.collector Scenario.zfs Scenario.clock).1)
    = [Sample.mk "zfs_dataset_used_bytes"
         [("pool", "tank"); ("dataset", "tank/data/logs")] (VInt 7)]
  ∧ Forall2 (row_sample Scenario.vol1) (dsmetrics ++ volmetrics)
      (dataset_samples "tank/vol1"
         (yielded (collect Scenario.collector Scenario.zfs Scenario.clock).1)).
Proof.
  pose (r := collect Scenario.collector Scenario.zfs Scenario.clock).
  assert (C : collect Scenario.collector Scenario.zfs Scenario.clock = (r.1, r.2))
    by reflexivity.
  assert (R : raised r.1 = None) by reflexivity.
  assert (Hd : libzfs.datasets Scenario.zfs
               = Ok {| libzfs.items := Scenario.datasets; libzfs.failure := None |})
    by reflexivity.
  split; [|split].
  - destruct (C1_depth_policy _ _ _ _ _ _ Scenario.deep C R Hd) as (_ & H & _).
    + reflexivity.
    + apply H. reflexivity.
  - destruct (C1_depth_policy _ _ _ _ _ _ Scenario.logs C R Hd) as (_ & _ & H & _).
    + reflexivity.
    + destruct H as (p & Hp & H); [reflexivity|].
      injection Hp as <-. exact H.
  - destruct (C1_depth_policy _ _ _ _ _ _ Scenario.vol1 C R Hd) as (_ & _ & _ & H).
    + reflexivity.
    + apply H. reflexivity.
Defined.


Lemma C6_type_code_witness :
  ∃ z, dataset_samples_in "zfs_dataset_type" "tank/vol1"
         (yielded (collect Scenario.collector Scenario.zfs Scenario.clock).1)
       = [Sample.mk "zfs_dataset_type"
            [("pool", "tank"); ("dataset", "tank/vol1")] (VInt z)]
     ∧ z = 1.
Proof.
  pose (r := collect Scenario.collector Scenario.zfs Scenario.clock).
  assert (C : collect Scenario.collector Scenario.zfs Scenario.clock = (r.1, r.2))
    by reflexivity.
  assert (R : raised r.1 = None) by reflexivity.
  assert (Hd : libzfs.datasets Scenario.zfs
               = Ok {| libzfs.items := Scenario.datasets; libzfs.failure := None |})
    by reflexivity.
  assert (I : identified Scenario.vol1 Scenario.datasets) by reflexivity.
  assert (D : depth Scenario.vol1 < ZFSCollector.limit Scenario.collector)
    by reflexivity.
  destruct (C6_type_code _ _ _ _ _ _ _ C R Hd I D)
    as (p & z & Hp & S & _ & V & _).
  exists z. split; [exact S|]. apply V.
  injection Hp as <-. reflexivity.
Defined.

Lemma C7_volsize_only_full_volume_witness :
  dataset_samples_in "zfs_dataset_volsize_bytes" "tank/data"
    (yielded (collect Scenario.collector Scenario.zfs Scenario.clock).1) = []
  ∧ dataset_samples_in "zfs_dataset_volsize_bytes" "tank/vol1"
      (yielded (collect Scenario.collector Scenario.zfs Scenario.clock).1)
    = [Sample.mk "zfs_dataset_volsize_bytes"
         [("pool", "tank"); ("dataset", "tank/vol1")] (VInt 2048)].
Proof.
  pose (r := collect Scenario.collector Scenario.zfs Scenario.clock).
  assert (C : collect Scenario.collector Scenario.zfs Scenario.clock = (r.1, r.2))
    by reflexivity.
  assert (R : raised r.1 = None) by reflexivity.
  assert (Hd : libzfs.datasets Scenario.zfs
               = Ok {| libzfs.items := Scenario.datasets; libzfs.failure := None |})
    by reflexivity.
  assert (I1 : identified Scenario.data Scenario.datasets) by reflexivity.
  assert (I2 : identified Scenario.vol1 Scenario.datasets) by reflexivity.
  split.
  - destruct (C7_volsize_only_full_volume _ _ _ _ _ _ _ C R Hd I1) as (H & _).
    apply H. discriminate.
  - destruct (C7_volsize_only_full_volume _ _ _ _ _ _ _ C R Hd I2) as (_ & _ & H).
    destruct H as (p & Hp & H); [reflexivity..|].
    injection Hp as <-. exact H.
Defined.

Lemma C8_naming_contract_witness :
  map (fun f => (GaugeMetricFamily.name f, GaugeMetricFamily.labelnames f))
      (yielded (collect Scenario.collector Scenario.zfs Scenario.clock).1)
  = [("zfs_pool_size_bytes", ["pool"]);
     ("zfs_pool_allocated_bytes", ["pool"]);
     ("zfs_pool_freeing_bytes", ["pool"]);
     ("zfs_dataset_used_bytes", ["pool"; "dataset"]);
     ("zfs_dataset_usedbydataset_bytes", ["pool"; "dataset"]);
     ("zfs_dataset_available_bytes", ["pool"; "dataset"]);
     ("zfs_dataset_atime_enabled", ["pool"; "dataset"]);
     ("zfs_dataset_creation_date", ["pool"; "dataset"]);
     ("zfs_dataset_type", ["pool"; "dataset"]);
     ("zfs_dataset_volsize_bytes", ["pool"; "dataset"])]
  ∧ Forall (fun f =>
              Forall (fun s => Sample.name s = GaugeMetricFamily.name f
                               ∧ (Sample.labels s).*1
                                 = GaugeMetricFamily.labelnames f)
                     (GaugeMetricFamily.samples f))
           (yielded (collect Scenario.collector Scenario.zfs Scenario.clock).1).
Proof.
  pose (r := collect Scenario.collector Scenario.zfs Scenario.clock).
  assert (C : collect Scenario.collector Scenario.zfs Scenario.clock = (r.1, r.2))
    by reflexivity.
  assert (R : raised r.1 = None) by reflexivity.
  destruct (C8_naming_contract _ _ _ _ _ C R) as [N S].
  split; [exact N|].
  apply Forall_forall. intros f Hf. apply Forall_forall. intros s Hs.
  exact (S f s Hf Hs).
Defined.



Lemma C10_fixed_series_witness :
  length (yielded (collect Scenario.collector Scenario.zfs Scenario.clock).1)
  = 10%nat.
Proof.
  pose (r := collect Scenario.collector Scenario.zfs Scenario.clock).
  assert (C : collect Scenario.collector Scenario.zfs Scenario.clock = (r.1, r.2))
    by reflexivity.
  assert (R : raised r.1 = None) by reflexivity.
  exact (proj1 (proj2 (proj2 (C10_fixed_series _ _ _ _ _ C R)))).
Defined.

(** ** Passes that raise *)




(** C4. When the data source fails, whether on opening the pools or the
    datasets or in the middle of an enumeration, the pass raises and has
    yielded no series; a failure on opening is the exception raised. The
    collector is left as it was. *)
Theorem C4_source_failure_aborts self zfs time e :
  libzfs.pools zfs = Raise e
  ∨ libzfs.datasets zfs = Raise e
  ∨ (∃ en, libzfs.pools zfs = Ok en ∧ libzfs.failure en = Some e)
  ∨ (∃ en, libzfs.datasets zfs = Ok en ∧ libzfs.failure en = Some e) →
  ∃ err, collect self zfs time = ({| yielded := []; raised := Some err |}, self)
         ∧ (libzfs.pools zfs = Raise e → err = e)
         ∧ (is_Ok (libzfs.pools zfs) = true → libzfs.datasets zfs = Raise e →
            err = e).
Proof.
  intros F.
  destruct (gather (ZFSCollector.limit self) zfs) as [[pm dm]|err] eqn:G.
  - exfalso. apply gather_Ok in G as (ps & dss & Hp & Hd & _).
    destruct F as [F|[F|[(en & F & Fe)|(en & F & Fe)]]];
      try congruence.
    + rewrite Hp in F. injection F as <-. discriminate.
    + rewrite Hd in F. injection F as <-. discriminate.
  - exists err. split; [by apply collect_Raise|]. unfold gather in G. split.
    + intros P. rewrite P in G. simpl in G. congruence.
    + intros P D. destruct (libzfs.pools zfs); [|discriminate].
      rewrite D in G. simpl in G. congruence.
Qed.

Lemma C4_source_failure_aborts_witness :
  ∃ err, collect Scenario.collector Scenario.zfs_unavailable Scenario.clock
         = ({| yielded := []; raised := Some err |}, Scenario.collector)
         ∧ err = ZFSException "Failed to initialize libzfs".
Proof.
  destruct (C4_source_failure_aborts Scenario.collector Scenario.zfs_unavailable
              Scenario.clock (ZFSException "Failed to initialize libzfs"))
    as (err & C & P & _).
  - left. reflexivity.
  - exists err. split; [exact C|]. apply P. reflexivity.
Defined.

(** ** The exclusion set *)

(** C3, evaluated. With [tank/data] in the exclusion set the pass still
    emits the six samples of [tank/data]. *)
Theorem C3_exclude_not_consulted :
  "tank/data" ∈ ZFSCollector.exclude (ZFSCollector.init 2 ["tank/data"])
  ∧ map Sample.name
      (dataset_samples "tank/data"
         (yielded (collect (ZFSCollector.init 2 ["tank/data"])
                     Scenario.zfs Scenario.clock).1))
    = ["zfs_dataset_used_bytes"; "zfs_dataset_usedbydataset_bytes";
       "zfs_dataset_available_bytes"; "zfs_dataset_atime_enabled";
       "zfs_dataset_creation_date"; "zfs_dataset_type"].
Proof.
  split; [|reflexivity].
  unfold ZFSCollector.init. simpl. set_solver.
Qed.

(** * Further properties of the pass *)

(** ** Picking a series out of the output *)

Lemma pool_name_not_dataset p k : "zfs_pool_" +:+ p +:+ "_bytes" ≠ "zfs_dataset_" +:+ k.
Proof. simpl. discriminate. Qed.

Lemma samples_of_pool_series pools limit datasets p :
  p ∈ pmetrics →
  samples_of ("zfs_pool_" +:+ p +:+ "_bytes")
    (map (pool_series pools) pmetrics
       ++ map (dataset_series limit datasets) (dsmetrics ++ volmetrics))
  = GaugeMetricFamily.samples (pool_series pools p).
Proof.
  intros Hp. unfold samples_of, pmetrics in Hp |- *.
  repeat (apply elem_of_cons in Hp as [->|Hp];
          [match goal with
           | |- all_samples ?l = GaugeMetricFamily.samples ?f =>
               change l with [f]; unfold all_samples; simpl; apply app_nil_r
           end|]).
  by apply elem_of_nil in Hp.
Qed.

Lemma filter_map {A B} (P : B → Prop) `{!∀ x, Decision (P x)} (f : A → B)
    (l : list A) :
  filter P (map f l) = map f (filter (fun x => P (f x)) l).
Proof.
  induction l as [|x l IH]; [done|]. simpl. destruct (decide (P (f x))).
  - rewrite !filter_cons_True by done. simpl. by rewrite IH.
  - by rewrite !filter_cons_False by done.
Qed.

Lemma samples_of_dataset_series pools limit datasets k meta :
  Dict.get (dsmetrics ++ volmetrics) k = Some meta →
  samples_of ("zfs_dataset_" +:+ k)
    (map (pool_series pools) pmetrics
       ++ map (dataset_series limit datasets) (dsmetrics ++ volmetrics))
  = GaugeMetricFamily.samples (dataset_series limit datasets (k, meta)).
Proof.
  intros G. unfold samples_of. rewrite filter_app.
  rewrite (filter_none _ (map (pool_series pools) pmetrics)).
  2:{ apply Forall_forall. intros f Hf.
      apply list_elem_of_fmap in Hf as (p & -> & _). apply pool_name_not_dataset. }
  rewrite app_nil_l, filter_map.
  assert (F : filter (fun item : string * Meta =>
                        GaugeMetricFamily.name (dataset_series limit datasets item)
                        = "zfs_dataset_" +:+ k) (dsmetrics ++ volmetrics)
              = [(k, meta)]).
  { rewrite <- (filter_key (dsmetrics ++ volmetrics) k meta); [|by unfold Dict.keys; rewrite fmap_app; apply catalog_NoDup|done].
    apply list_filter_iff. intros item. simpl.
    split; [apply append_inj_r | by intros ->]. }
  rewrite F. unfold all_samples. simpl. apply app_nil_r.
Qed.

(** ** The pools *)

Lemma evaluated_pool_readable pool :
  evaluated (pool_calls pool) → pool_readable pool.
Proof.
  unfold evaluated, pool_calls, pool_readable. rewrite Forall_fmap, Forall_forall.
  intros E k Hk. specialize (E k Hk). simpl in E.
  apply is_Ok_bind_subscript in E as (p & -> & _). eauto.
Qed.

(** The one row a readable pool puts into the series of the property [p]. *)
Lemma pool_rows pool p :
  p ∈ pmetrics → pool_readable pool →
  ∃ prop, ZFSPool.properties pool !! p = Some prop
          ∧ rows_for p (pool_calls pool) = [([ZFSPool.name pool], parsed prop)].
Proof.
  intros Hp R.
  assert (∀ k, k ∈ pmetrics → ∃ prop, ZFSPool.properties pool !! k = Some prop)
    as Props by (intros k Hk; exact (R k Hk)).
  destruct (Props "size") as [p1 H1]; [in_list|].
  destruct (Props "allocated") as [p2 H2]; [in_list|].
  destruct (Props "freeing") as [p3 H3]; [in_list|].
  unfold pmetrics in Hp.
  repeat (apply elem_of_cons in Hp as [->|Hp];
          [eexists; split; [eassumption|];
           unfold rows_for, pool_calls, pmetrics, subscript; simpl;
           rewrite ?H1, ?H2, ?H3; reflexivity|]).
  by apply elem_of_nil in Hp.
Qed.

Lemma pool_series_samples pools p :
  p ∈ pmetrics → Forall pool_readable pools →
  ∃ props,
    Forall2 (fun pool prop => ZFSPool.properties pool !! p = Some prop) pools props
    ∧ GaugeMetricFamily.samples (pool_series pools p)
      = zip_with (fun pool prop =>
                    Sample.mk ("zfs_pool_" +:+ p +:+ "_bytes")
                      [("pool", ZFSPool.name pool)] (parsed prop))
                 pools props.
Proof.
  intros Hp. unfold pool_series. cbn [GaugeMetricFamily.samples].
  induction 1 as [|pool pools R _ (props & F & IH)].
  - exists []. split; [constructor | done].
  - destruct (pool_rows pool p Hp R) as (prop & Hprop & Rows).
    exists (prop :: props). split; [by constructor|].
    cbn [flat_map]. rewrite rows_for_app, map_app, Rows, IH. done.
Qed.

(** X1. In a completed pass each of the three pool series holds one sample
    per pool, in the order of the enumeration, labelled with the name of
    the pool and valued with the parsed property. *)
Theorem X1_pool_series self zfs time g self' pools p :
  collect self zfs time = (g, self') →
  raised g = None →
  libzfs.pools zfs = Ok {| libzfs.items := pools; libzfs.failure := None |} →
  p ∈ pmetrics →
  ∃ props,
    Forall2 (fun pool prop => ZFSPool.properties pool !! p = Some prop) pools props
    ∧ samples_of ("zfs_pool_" +:+ p +:+ "_bytes") (yielded g)
      = zip_with (fun pool prop =>
                    Sample.mk ("zfs_pool_" +:+ p +:+ "_bytes")
                      [("pool", ZFSPool.name pool)] (parsed prop))
                 pools props.
Proof.
  intros C R Hpools Hp.
  apply collect_completed in C as (ps & dss & Hps & _ & Ep & _ & ->); [|done].
  rewrite Hpools in Hps. injection Hps as <-.
  rewrite samples_of_pool_series by done.
  apply pool_series_samples; [done|].
  apply Forall_forall. intros pool Hpool.
  by apply evaluated_pool_readable, (evaluated_elem _ _ _ Ep).
Qed.

Lemma X1_pool_series_witness :
  samples_of "zfs_pool_allocated_bytes"
    (yielded (collect Scenario.collector Scenario.zfs Scenario.clock).1)
  = [Sample.mk "zfs_pool_allocated_bytes" [("pool", "tank")] (VInt 400)].
Proof.
  pose (r := collect Scenario.collector Scenario.zfs Scenario.clock).
  assert (C : collect Scenario.collector Scenario.zfs Scenario.clock = (r.1, r.2))
    by reflexivity.
  assert (R : raised r.1 = None) by reflexivity.
  assert (Hp : libzfs.pools Scenario.zfs
               = Ok {| libzfs.items := [Scenario.tank]; libzfs.failure := None |})
    by reflexivity.
  assert (Hk : "allocated" ∈ pmetrics) by in_list.
  destruct (X1_pool_series _ _ _ _ _ _ _ C R Hp Hk) as (props & F & S).
  apply Forall2_cons_inv_l in F as (prop & props' & Hprop & F & ->).
  apply Forall2_nil_inv_l in F as ->.
  injection Hprop as <-. exact S.
Defined.

(** ** The first exception *)

Lemma first_error_app c1 c2 :
  first_error (c1 ++ c2)
  = match first_error c1 with Some e => Some e | None => first_error c2 end.
Proof.
  induction c1 as [|c c1 IH]; simpl; [done|]. by destruct (call_value c).
Qed.

Lemma first_error_evaluated calls : evaluated calls → first_error calls = None.
Proof.
  induction 1 as [|c calls Hc _ IH]; simpl; [done|].
  by destruct (call_value c).
Qed.

(** A sequence of calls on existing families raises the exception of its
    first raising call. *)
Lemma run_calls_first_error calls (m : Metrics) e :
  Forall (fun c => call_key c ∈ Dict.keys m) calls →
  first_error calls = Some e →
  run_calls calls m = Raise e.
Proof.
  revert m. induction calls as [|c calls IH]; intros m K F; [done|].
  apply Forall_cons in K as [Kc K]. simpl in F.
  destruct (Dict_get_keys _ _ Kc) as [fam G].
  assert (A : add_metric_at m (call_key c) (call_labels c) (call_value c)
              = match call_value c with
                | Ok v => Ok (Dict.set (call_key c)
                                (GaugeMetricFamily.add_metric fam (call_labels c) v) m)
                | Raise e' => Raise e'
                end).
  { unfold add_metric_at, Dict.getitem. rewrite G. by destruct (call_value c). }
  unfold run_calls. simpl. rewrite A. destruct (call_value c) as [v|e'].
  - simpl. apply IH; [|done]. eapply Forall_impl; [exact K|].
    intros c' Hc'. rewrite Dict_set_keys; [done|]. by eapply Dict_get_Some_keys.
  - simpl. congruence.
Qed.

Lemma pools_keys pools :
  Forall (fun c => call_key c ∈ Dict.keys new_pools_metrics)
         (flat_map pool_calls pools).
Proof.
  apply Forall_forall. intros c Hc.
  apply list_elem_of_In, in_flat_map in Hc as (pool & _ & Hc).
  apply list_elem_of_In in Hc. rewrite new_pools_metrics_keys.
  by eapply pool_calls_keys.
Qed.


(** X2. The pools are read before any dataset, pool by pool and property
    by property: when both collections open, the first pool that lacks one
    of [size], [allocated], [freeing] makes the pass raise [KeyError] for
    the first property it lacks, whatever the datasets are; nothing is
    yielded and the collector is left as it was. *)
Theorem X2_first_missing_pool_property self zfs time en pre pool post kpre k kpost :
  libzfs.pools zfs = Ok en →
  is_Ok (libzfs.datasets zfs) = true →
  libzfs.items en = pre ++ pool :: post →
  Forall pool_readable pre →
  pmetrics = kpre ++ k :: kpost →
  (∀ k', k' ∈ kpre → is_Some (ZFSPool.properties pool !! k')) →
  ZFSPool.properties pool !! k = None →
  collect self zfs time
  = ({| yielded := []; raised := Some (KeyError k) |}, self).
Proof.
  intros Hp Hd Items Pre Keys Kpre Nk. apply collect_Raise.
  assert (L : for_enum collect_pool en new_pools_metrics = Raise (KeyError k)).
  2:{ unfold gather. rewrite Hp.
      destruct (libzfs.datasets zfs) as [ed|]; [|discriminate].
      cbn [mbind result_bind]. by rewrite L. }
  unfold for_enum. rewrite pools_loop, Items.
  rewrite (run_calls_first_error _ _ (KeyError k)); [done|apply pools_keys|].
  rewrite flat_map_app, first_error_app, first_error_evaluated.
  2:{ apply evaluated_flat_map. intros q Hq. apply pool_evaluated.
      rewrite Forall_forall in Pre. by apply Pre. }
  cbn [flat_map]. rewrite first_error_app.
  unfold pool_calls at 1.
  rewrite Keys, map_app, first_error_app, first_error_evaluated.
  - cbn [map first_error call_value]. unfold subscript. by rewrite Nk.
  - unfold evaluated. rewrite Forall_fmap. apply Forall_forall. intros k' Hk'.
    simpl. unfold subscript. by destruct (Kpre k' Hk') as [prop ->].
Qed.

Lemma X2_first_missing_pool_property_witness :
  collect Scenario.collector Cases.zfs_degraded Scenario.clock
  = ({| yielded := []; raised := Some (KeyError "allocated") |},
     Scenario.collector).
Proof.
  apply (X2_first_missing_pool_property Scenario.collector Cases.zfs_degraded
           Scenario.clock (Scenario.all [Scenario.tank; Cases.degraded])
           [Scenario.tank] Cases.degraded [] ["size"] "allocated" ["freeing"]).
  - reflexivity.
  - reflexivity.
  - reflexivity.
  - constructor; [|constructor]. intros k Hk. unfold pmetrics in Hk.
    repeat (apply elem_of_cons in Hk as [->|Hk]; [by eexists|]).
    by apply elem_of_nil in Hk.
  - reflexivity.
  - intros k' ->%list_elem_of_singleton. by eexists.
  - reflexivity.
Defined.

(** ** When a pass completes, exactly *)


(** ** The order of the samples in the dataset series *)

Lemma dataset_series_own limit datasets item :
  GaugeMetricFamily.samples (dataset_series limit datasets item)
  = flat_map (fun ds => own_samples limit ds item) datasets.
Proof.
  unfold dataset_series, own_samples. cbn [GaugeMetricFamily.samples].
  by rewrite rows_for_flat_map, flat_map_map.
Qed.

Lemma map_flat_map_filter {A B C} (f : A → list B) (h : B → C) (c : A → C)
    (P : A → Prop) `{!∀ x, Decision (P x)} (l : list A) :
  (∀ x, x ∈ l → map h (f x) = if decide (P x) then [c x] else []) →
  map h (flat_map f l) = map c (filter P l).
Proof.
  induction l as [|x l IH]; intros Hf; [done|].
  cbn [flat_map]. rewrite map_app, (Hf x) by apply list_elem_of_here.
  rewrite IH by (intros y Hy; apply Hf; by apply list_elem_of_further).
  destruct (decide (P x)).
  - by rewrite filter_cons_True.
  - by rewrite filter_cons_False.
Qed.

Lemma own_labels_used limit ds meta :
  Dict.get dsmetrics "used_bytes" = Some meta →
  evaluated (dataset_calls limit ds) →
  map Sample.labels (own_samples limit ds ("used_bytes", meta))
  = if decide (depth ds <= limit) then [label_set ds] else [].
Proof.
  intros G E. destruct (decide (depth ds <= limit)) as [D|D].
  - destruct (decide (depth ds = limit)) as [D'|D'].
    + unfold own_samples. rewrite dataset_calls_summary in * by done.
      apply Forall_cons in E as [E _]. simpl in E.
      apply is_Ok_bind_subscript in E as (p & Hp & _).
      unfold rows_for, subscript. simpl. by rewrite Hp.
    + destruct (own_samples_full_ds limit ds ("used_bytes", meta))
        as (s & -> & _ & L & _); [lia|done|by apply Dict_get_Some_elem|].
      simpl. by rewrite L.
  - unfold own_samples. by rewrite dataset_calls_beyond by lia.
Qed.

Lemma own_labels_detail limit ds k meta :
  k ≠ "used_bytes" →
  Dict.get dsmetrics k = Some meta →
  evaluated (dataset_calls limit ds) →
  map Sample.labels (own_samples limit ds (k, meta))
  = if decide (depth ds < limit) then [label_set ds] else [].
Proof.
  intros Hk G E. destruct (decide (depth ds < limit)) as [D|D].
  - destruct (own_samples_full_ds limit ds (k, meta))
      as (s & -> & _ & L & _); [done|done|by apply Dict_get_Some_elem|].
    simpl. by rewrite L.
  - unfold own_samples. destruct (decide (depth ds = limit)) as [D'|D'].
    + rewrite dataset_calls_summary by done. unfold rows_for. cbn [flat_map call_key fst].
      destruct (String.eqb_spec "used_bytes" k) as [Heq|_]; [congruence|].
      reflexivity.
    + by rewrite dataset_calls_beyond by lia.
Qed.

Lemma own_labels_volume limit ds k meta :
  Dict.get volmetrics k = Some meta →
  evaluated (dataset_calls limit ds) →
  map Sample.labels (own_samples limit ds (k, meta))
  = if decide (is_volume ds = true ∧ depth ds < limit) then [label_set ds] else [].
Proof.
  intros G E. pose proof (Dict_get_Some_elem _ _ _ G) as Hi.
  destruct (decide (is_volume ds = true ∧ depth ds < limit)) as [[V D]|N].
  - pose proof (own_samples_full_vol limit ds (k, meta) D E Hi) as H.
    rewrite V in H. destruct H as (s & -> & _ & L & _). simpl. by rewrite L.
  - destruct (decide (depth ds < limit)) as [D|D].
    + pose proof (own_samples_full_vol limit ds (k, meta) D E Hi) as H.
      destruct (is_volume ds); [by destruct N | by rewrite H].
    + unfold own_samples. destruct (decide (depth ds = limit)) as [D'|D'].
      * rewrite dataset_calls_summary by done. unfold rows_for.
        cbn [flat_map call_key fst].
        destruct (String.eqb_spec "used_bytes" k) as [<-|_]; [|done].
        exfalso. apply (volmetrics_not_ds _ Hi). simpl. in_list.
      * by rewrite dataset_calls_beyond by lia.
Qed.

(** X4. In a completed pass the samples of a dataset series follow the
    order of the enumeration: [used_bytes] has one sample per dataset at or
    within the limit, every other row of the dataset catalog one per dataset
    strictly within the limit, and [volsize_bytes] one per volume strictly
    within the limit, each labelled with the pool and the name of its
    dataset. *)
Theorem X4_dataset_series_order self zfs time g self' datasets :
  collect self zfs time = (g, self') →
  raised g = None →
  libzfs.datasets zfs = Ok {| libzfs.items := datasets; libzfs.failure := None |} →
  map Sample.labels (samples_of "zfs_dataset_used_bytes" (yielded g))
  = map label_set
      (filter (fun ds => depth ds <= ZFSCollector.limit self) datasets)
  ∧ (∀ k, k ∈ Dict.keys dsmetrics → k ≠ "used_bytes" →
          map Sample.labels (samples_of ("zfs_dataset_" +:+ k) (yielded g))
          = map label_set
              (filter (fun ds => depth ds < ZFSCollector.limit self) datasets))
  ∧ map Sample.labels (samples_of "zfs_dataset_volsize_bytes" (yielded g))
    = map label_set
        (filter (fun ds => is_volume ds = true
                           ∧ depth ds < ZFSCollector.limit self) datasets).
Proof.
  intros C R Hd.
  apply collect_completed in C as (ps & dss & _ & Hd' & _ & E & ->); [|done].
  rewrite Hd in Hd'. injection Hd' as <-.
  assert (Eds : ∀ ds, ds ∈ datasets →
                      evaluated (dataset_calls (ZFSCollector.limit self) ds))
    by (intros ds Hds; by apply (evaluated_elem _ _ _ E)).
  split; [|split].
  - destruct (Dict.get dsmetrics "used_bytes") as [meta|] eqn:G; [|discriminate].
    rewrite (samples_of_dataset_series _ _ _ "used_bytes" meta)
      by (by rewrite catalog_get_app, G).
    rewrite dataset_series_own. apply map_flat_map_filter.
    intros ds Hds. apply own_labels_used; auto.
  - intros k Hk Hne. destruct (Dict_get_keys _ _ Hk) as [meta G].
    rewrite (samples_of_dataset_series _ _ _ k meta)
      by (by rewrite catalog_get_app, G).
    rewrite dataset_series_own. apply map_flat_map_filter.
    intros ds Hds. apply own_labels_detail; auto.
  - destruct (Dict.get volmetrics "volsize_bytes") as [meta|] eqn:G; [|discriminate].
    rewrite (samples_of_dataset_series _ _ _ "volsize_bytes" meta)
      by (by rewrite catalog_get_app).
    rewrite dataset_series_own. apply map_flat_map_filter.
    intros ds Hds. apply own_labels_volume; auto.
Qed.

Lemma X4_dataset_series_order_witness :
  map Sample.labels
    (samples_of "zfs_dataset_used_bytes"
       (yielded (collect Scenario.collector Scenario.zfs Scenario.clock).1))
  = [[("pool", "tank"); ("dataset", "tank/data")];
     [("pool", "tank"); ("dataset", "tank/data/logs")];
     [("pool", "tank"); ("dataset", "tank/vol1")]].
Proof.
  pose (r := collect Scenario.collector Scenario.zfs Scenario.clock).
  assert (C : collect Scenario.collector Scenario.zfs Scenario.clock = (r.1, r.2))
    by reflexivity.
  assert (R : raised r.1 = None) by reflexivity.
  assert (Hd : libzfs.datasets Scenario.zfs
               = Ok {| libzfs.items := Scenario.datasets; libzfs.failure := None |})
    by reflexivity.
  exact (proj1 (X4_dataset_series_order _ _ _ _ _ _ C R Hd)).
Defined.

(** ** Datasets beyond the limit *)

Lemma collect_dataset_beyond limit ds (m : Metrics) :
  ¬ depth ds <= limit → collect_dataset limit ds m = Ok m.
Proof.
  intros D. unfold collect_dataset.
  destruct (Z.gtb_spec (depth ds) limit); [done | lia].
Qed.

Lemma for_each_within_limit limit datasets (m : Metrics) :
  for_each (collect_dataset limit)
    (filter (fun ds => depth ds <= limit) datasets) m
  = for_each (collect_dataset limit) datasets m.
Proof.
  revert m. induction datasets as [|ds dss IH]; intros m; [done|].
  destruct (decide (depth ds <= limit)) as [D|D].
  - rewrite filter_cons_True by done. simpl.
    destruct (collect_dataset limit ds m); simpl; auto.
  - rewrite filter_cons_False by done. simpl.
    rewrite collect_dataset_beyond by done. simpl. apply IH.
Qed.

(** X5. The pass never reads a dataset deeper than the limit: leaving
    those datasets out of the enumeration changes nothing, neither the
    series yielded nor the exception raised nor the collector. *)
Theorem X5_beyond_limit_not_read self zfs time :
  collect self (within_limit (ZFSCollector.limit self) zfs) time
  = collect self zfs time.
Proof.
  unfold collect.
  assert (G : gather (ZFSCollector.limit self)
                (within_limit (ZFSCollector.limit self) zfs)
              = gather (ZFSCollector.limit self) zfs); [|by rewrite G].
  unfold gather, within_limit. cbn [libzfs.pools libzfs.datasets].
  destruct (libzfs.pools zfs) as [ep|]; [|done].
  destruct (libzfs.datasets zfs) as [ed|]; [|done].
  cbn [mbind result_bind].
  destruct (for_enum collect_pool ep new_pools_metrics) as [pm|]; [|done].
  cbn [mbind result_bind]. unfold for_enum. cbn [libzfs.items libzfs.failure].
  by rewrite for_each_within_limit.
Qed.

(** ** Successive passes *)

Lemma collect_outcome_limit a b zfs time time' :
  ZFSCollector.limit a = ZFSCollector.limit b →
  (collect a zfs time).1 = (collect b zfs time').1.
Proof.
  intros L. unfold collect. rewrite L.
  by destruct (gather (ZFSCollector.limit b) zfs) as [[? ?]|?].
Qed.

Lemma collect_collector self zfs time :
  ZFSCollector.limit (collect self zfs time).2 = ZFSCollector.limit self
  ∧ ZFSCollector.exclude (collect self zfs time).2 = ZFSCollector.exclude self
  ∧ Summary.count (ZFSCollector.duration_summary (collect self zfs time).2)
    = (Summary.count (ZFSCollector.duration_summary self)
       + length (filter (fun g => raised g = None) [(collect self zfs time).1]))%nat.
Proof.
  unfold collect.
  destruct (gather (ZFSCollector.limit self) zfs) as [[pm dm]|e]; simpl.
  - repeat split. unfold Summary.count. simpl. by rewrite length_app.
  - repeat split. lia.
Qed.

(** X6. Over any run of scrapes on one collector, the configuration of the
    collector is never changed, the duration summary holds one observation
    per completed pass and none for a pass that raised, and what each pass
    yields or raises is what a collector in its initial state would give on
    that source: nothing is carried from one pass to the next. *)
Theorem X6_successive_passes self scrapes :
  ZFSCollector.limit (passes self scrapes).2 = ZFSCollector.limit self
  ∧ ZFSCollector.exclude (passes self scrapes).2 = ZFSCollector.exclude self
  ∧ Summary.count (ZFSCollector.duration_summary (passes self scrapes).2)
    = (Summary.count (ZFSCollector.duration_summary self)
       + length (filter (fun g => raised g = None) (passes self scrapes).1))%nat
  ∧ (passes self scrapes).1
    = map (fun scrape : libzfs.ZFS * (nat → Q) =>
             (collect self scrape.1 scrape.2).1) scrapes.
Proof.
  revert self. induction scrapes as [|[zfs time] scrapes IH]; intros self.
  - simpl. repeat split. lia.
  - destruct (IH (collect self zfs time).2) as (L & X & N & O).
    destruct (collect_collector self zfs time) as (L1 & X1 & N1).
    cbn [passes fst snd]. split; [congruence|]. split; [congruence|]. split.
    + rewrite N, N1.
      change ((collect self zfs time).1 :: (passes (collect self zfs time).2 scrapes).1)
        with ([(collect self zfs time).1]
                ++ (passes (collect self zfs time).2 scrapes).1).
      rewrite filter_app, length_app. lia.
    + cbn [map fst snd]. f_equal. rewrite O. apply map_ext.
      intros [zfs' time']. by apply collect_outcome_limit.
Qed.

(** ** The number of samples *)

Lemma length_flat_map_app {A B} (f g : A → list B) (l : list A) :
  length (flat_map (fun x => f x ++ g x) l)
  = (length (flat_map f l) + length (flat_map g l))%nat.
Proof.
  induction l as [|x l IH]; [done|]. cbn [flat_map].
  rewrite !length_app, IH. lia.
Qed.

Lemma own_samples_count limit ds :
  evaluated (dataset_calls limit ds) →
  length (flat_map (own_samples limit ds) (dsmetrics ++ volmetrics))
  = dataset_sample_count limit ds.
Proof.
  intros E. unfold dataset_sample_count.
  destruct (Z.gtb_spec (depth ds) limit) as [D|D].
  { by rewrite own_samples_beyond by lia. }
  destruct (Z.eqb_spec (depth ds) limit) as [D'|D'].
  { by destruct (own_samples_summary limit ds D' E) as (p & _ & ->). }
  pose proof (own_samples_full limit ds ltac:(lia) E) as F.
  apply Forall2_length in F. rewrite <- F, length_app.
  by destruct (is_volume ds).
Qed.

Lemma dataset_series_count limit datasets :
  evaluated (flat_map (dataset_calls limit) datasets) →
  length (all_samples (map (dataset_series limit datasets) (dsmetrics ++ volmetrics)))
  = sum_list_with (dataset_sample_count limit) datasets.
Proof.
  intros E. rewrite all_samples_map.
  rewrite (flat_map_ext _ (fun item =>
             flat_map (fun ds => own_samples limit ds item) datasets))
    by (intros item; apply dataset_series_own).
  induction datasets as [|ds dss IH].
  - cbn [flat_map sum_list_with]. generalize (dsmetrics ++ volmetrics).
    intros l. by induction l.
  - cbn [flat_map sum_list_with] in *. apply evaluated_app in E as [Eds E].
    rewrite length_flat_map_app, IH by done.
    by rewrite own_samples_count.
Qed.

Lemma pool_series_count pools :
  Forall pool_readable pools →
  length (all_samples (map (pool_series pools) pmetrics))
  = (length pmetrics * length pools)%nat.
Proof.
  intros R. rewrite all_samples_map.
  assert (L : ∀ p, p ∈ pmetrics →
                   length (GaugeMetricFamily.samples (pool_series pools p))
                   = length pools).
  { intros p Hp. destruct (pool_series_samples pools p Hp R) as (props & F & ->).
    apply Forall2_length in F. rewrite length_zip_with. lia. }
  revert L. generalize pmetrics. intros l. induction l as [|p l IH]; intros L.
  - done.
  - cbn [flat_map length]. rewrite length_app, L by apply list_elem_of_here.
    rewrite IH by (intros q Hq; apply L; by apply list_elem_of_further). lia.
Qed.

(** X7. A completed pass yields three samples per pool, none for a dataset
    beyond the limit, one for a dataset at the limit, and six for a dataset
    within it, seven if it is a volume. *)
Theorem X7_sample_count self zfs time g self' pools datasets :
  collect self zfs time = (g, self') →
  raised g = None →
  libzfs.pools zfs = Ok {| libzfs.items := pools; libzfs.failure := None |} →
  libzfs.datasets zfs = Ok {| libzfs.items := datasets; libzfs.failure := None |} →
  length (all_samples (yielded g))
  = (3 * length pools
     + sum_list_with
         (fun ds => if decide (depth ds > ZFSCollector.limit self)%Z then 0
                    else if decide (depth ds = ZFSCollector.limit self) then 1
                    else if is_volume ds then 7 else 6)
         datasets)%nat.
Proof.
  intros C R Hp Hd.
  apply collect_completed in C as (ps & dss & Hp' & Hd' & Ep & Ed & ->); [|done].
  rewrite Hp in Hp'. injection Hp' as <-. rewrite Hd in Hd'. injection Hd' as <-.
  rewrite all_samples_app, length_app, dataset_series_count by done.
  rewrite pool_series_count.
  2:{ apply Forall_forall. intros pool Hpool.
      by apply evaluated_pool_readable, (evaluated_elem _ _ _ Ep). }
  f_equal. generalize datasets. intros l.
  induction l as [|ds l IH]; [done|]. cbn [sum_list_with]. rewrite IH. f_equal.
  unfold dataset_sample_count.
  destruct (Z.gtb_spec (depth ds) (ZFSCollector.limit self)).
  { by rewrite decide_True by lia. }
  rewrite decide_False by lia.
  destruct (Z.eqb_spec (depth ds) (ZFSCollector.limit self)).
  { by rewrite decide_True. }
  rewrite decide_False by done. by destruct (is_volume ds).
Qed.

Lemma X7_sample_count_witness :
  length (all_samples
            (yielded (collect Scenario.collector Scenario.zfs Scenario.clock).1))
  = (3 * 1 + (6 + (1 + (7 + (0 + 0)))))%nat.
Proof.
  pose (r := collect Scenario.collector Scenario.zfs Scenario.clock).
  assert (C : collect Scenario.collector Scenario.zfs Scenario.clock = (r.1, r.2))
    by reflexivity.
  assert (R : raised r.1 = None) by reflexivity.
  assert (Hp : libzfs.pools Scenario.zfs
               = Ok {| libzfs.items := [Scenario.tank]; libzfs.failure := None |})
    by reflexivity.
  assert (Hd : libzfs.datasets Scenario.zfs
               = Ok {| libzfs.items := Scenario.datasets; libzfs.failure := None |})
    by reflexivity.
  exact (X7_sample_count _ _ _ _ _ _ _ C R Hp Hd).
Defined.

(** ** Depth and [split] *)

Lemma count_append sep a b :
  Str.count sep (a +:+ b) = (Str.count sep a + Str.count sep b)%nat.
Proof. induction a as [|c a IH]; simpl; [done|]. rewrite IH. lia. Qed.

(** X8. The depth of a dataset is the number of slashes in its name: it is
    never negative, it is 0 for a name without a slash (the root dataset of
    a pool), and a dataset named [parent/segment] is one level deeper than
    its parent. *)
Theorem X8_depth_of_names ds :
  depth ds = Z.of_nat (Str.count "/" (ZFSDataset.name ds))
  ∧ 0 <= depth ds
  ∧ (Str.count "/" (ZFSDataset.name ds) = 0%nat → depth ds = 0)
  ∧ (∀ parent segment,
       ZFSDataset.name ds = ZFSDataset.name parent +:+ "/" +:+ segment →
       Str.count "/" segment = 0%nat →
       depth ds = depth parent + 1).
Proof.
  pose proof (depth_count ds) as D. split; [done|]. split; [lia|].
  split; [lia|]. intros parent segment N S.
  rewrite D, (depth_count parent), N, !count_append, S. simpl. lia.
Qed.

Lemma X8_depth_of_names_witness :
  depth Scenario.logs = depth Scenario.data + 1.
Proof.
  destruct (X8_depth_of_names Scenario.logs) as (_ & _ & _ & H).
  apply (H Scenario.data "logs"); reflexivity.
Defined.

Lemma split_nonempty sep s : Str.split sep s ≠ [].
Proof.
  intros H. apply (f_equal length) in H. rewrite split_length in H. discriminate.
Qed.

(** X9. Cutting a string at a separator loses nothing: joining the pieces
    with the separator gives the string back; no piece contains the
    separator; and a string without the separator is its own single
    piece. *)
Theorem X9_split_join sep s :
  String.concat (String sep EmptyString) (Str.split sep s) = s
  ∧ Forall (fun piece => Str.count sep piece = 0%nat) (Str.split sep s)
  ∧ (Str.count sep s = 0%nat → Str.split sep s = [s]).
Proof.
  induction s as [|c s (J & P & O)].
  { split; [done|]. split; [by repeat constructor | done]. }
  simpl. destruct (Ascii.eqb c sep) eqn:Ec.
  - apply Ascii.eqb_eq in Ec as ->. repeat split.
    + destruct (Str.split sep s) as [|h t] eqn:Es; [by destruct (split_nonempty sep s)|].
      simpl in *. by rewrite J.
    + by constructor.
    + discriminate.
  - destruct (Str.split sep s) as [|h t] eqn:Es; [by destruct (split_nonempty sep s)|].
    apply Forall_cons in P as [Ph Pt]. repeat split.
    + destruct t; simpl in *; by rewrite <- J.
    + constructor; [|done]. simpl. by rewrite Ec.
    + simpl. intros Z. specialize (O Z). by injection O as -> ->.
Qed.

Lemma X9_split_join_witness :
  Str.split "/" "tank" = ["tank"].
Proof.
  apply (proj2 (proj2 (X9_split_join "/" "tank"))). reflexivity.
Defined.

(** ** [int] on decimal numerals *)







(** ** The help texts *)

(** X11. Every completed pass gives its ten series the same help texts:
    [ZFS Pool <property> in bytes] for the pools and the description of the
    catalog row for the datasets. *)
Theorem X11_documentation self zfs time g self' :
  collect self zfs time = (g, self') →
  raised g = None →
  map (fun f => (GaugeMetricFamily.name f, GaugeMetricFamily.documentation f))
      (yielded g)
  = map (fun p => ("zfs_pool_" +:+ p +:+ "_bytes", "ZFS Pool " +:+ p +:+ " in bytes"))
        pmetrics
    ++ map (fun item : string * Meta => ("zfs_dataset_" +:+ item.1, desc item.2))
           (dsmetrics ++ volmetrics).
Proof.
  intros C R.
  apply collect_completed in C as (ps & dss & _ & _ & _ & _ & ->); [|done].
  by rewrite map_app, !map_map.
Qed.

Lemma X11_documentation_witness :
  (map (fun f => (GaugeMetricFamily.name f, GaugeMetricFamily.documentation f))
       (yielded (collect Scenario.collector Scenario.zfs Scenario.clock).1))
    !! 1%nat
  = Some ("zfs_pool_allocated_bytes", "ZFS Pool allocated in bytes").
Proof.
  pose (r := collect Scenario.collector Scenario.zfs Scenario.clock).
  assert (C : collect Scenario.collector Scenario.zfs Scenario.clock = (r.1, r.2))
    by reflexivity.
  assert (R : raised r.1 = None) by reflexivity.
  pose proof (X11_documentation _ _ _ _ _ C R) as H.
  apply (f_equal (fun l => l !! 1%nat)) in H. exact H.
Defined.

(** ** The first exception among the datasets *)





(** ** A negative limit *)

(** X13. With a negative limit every dataset is beyond the limit: a
    completed pass leaves all seven dataset series empty, and the pass does
    not depend on any property of any dataset to complete. *)
Theorem X13_negative_limit self zfs time pools datasets :
  ZFSCollector.limit self < 0 →
  libzfs.pools zfs = Ok {| libzfs.items := pools; libzfs.failure := None |} →
  libzfs.datasets zfs = Ok {| libzfs.items := datasets; libzfs.failure := None |} →
  Forall pool_readable pools →
  raised (collect self zfs time).1 = None
  ∧ ∀ k, k ∈ Dict.keys dsmetrics ++ Dict.keys volmetrics →
         samples_of ("zfs_dataset_" +:+ k) (yielded (collect self zfs time).1) = [].
Proof.
  intros L Hp Hd Rp.
  assert (Calls : ∀ ds, dataset_calls (ZFSCollector.limit self) ds = []).
  { intros ds. apply dataset_calls_beyond. pose proof (depth_nonneg ds). lia. }
  assert (R : raised (collect self zfs time).1 = None).
  { apply (collect_evaluated _ _ _ _ _ Hp Hd).
    - apply evaluated_flat_map. intros pool Hpool. apply pool_evaluated.
      rewrite Forall_forall in Rp. by apply Rp.
    - apply evaluated_flat_map. intros ds _. rewrite Calls. constructor. }
  split; [done|]. intros k Hk.
  destruct (collect self zfs time) as [g self'] eqn:C.
  apply collect_completed in C as (ps & dss & _ & _ & _ & _ & Y); [|done].
  cbn [fst]. rewrite Y.
  assert (is_Some (Dict.get (dsmetrics ++ volmetrics) k)) as [meta G].
  { apply Dict_get_keys. unfold Dict.keys in *. by rewrite fmap_app. }
  rewrite (samples_of_dataset_series _ _ _ k meta G), dataset_series_own.
  apply flat_map_nils, Forall_forall. intros ds _.
  unfold own_samples. by rewrite Calls.
Qed.

Lemma X13_negative_limit_witness :
  raised (collect (ZFSCollector.init (-1) []) Scenario.zfs_broken Scenario.clock).1
  = None.
Proof.
  assert (Rp : Forall pool_readable [Scenario.tank]).
  { constructor; [|constructor]. intros k Hk. unfold pmetrics in Hk.
    repeat (apply elem_of_cons in Hk as [->|Hk]; [by eexists|]).
    by apply elem_of_nil in Hk. }
  assert (L : ZFSCollector.limit (ZFSCollector.init (-1) []) < 0) by reflexivity.
  exact (proj1 (X13_negative_limit (ZFSCollector.init (-1) []) Scenario.zfs_broken
                  Scenario.clock [Scenario.tank]
                  [Scenario.data; Scenario.broken; Scenario.vol1]
                  L eq_refl eq_refl Rp)).
Defined.

(** ** The values at full detail *)

Lemma bytes_getters :
  ∃ used dataset available creation,
    Dict.get dsmetrics "used_bytes" = Some used
    ∧ Dict.get dsmetrics "usedbydataset_bytes" = Some dataset
    ∧ Dict.get dsmetrics "available_bytes" = Some available
    ∧ Dict.get dsmetrics "creation_date" = Some creation
    ∧ ∀ ds,
        getter used ds
        = (p ← subscript (ZFSDataset.properties ds) "used"; Ok (parsed p))
        ∧ getter dataset ds
          = (p ← subscript (ZFSDataset.properties ds) "usedbydataset"; Ok (parsed p))
        ∧ getter available ds
          = (p ← subscript (ZFSDataset.properties ds) "available"; Ok (parsed p))
        ∧ getter creation ds
          = (p ← subscript (ZFSDataset.properties ds) "creation";
             z ← py_int (rawvalue p); Ok (VInt z)).
Proof. do 4 eexists. repeat split; reflexivity. Qed.

Lemma subscript_Ok {V} (d : gmap string V) k v :
  subscript d k = Ok v → d !! k = Some v.
Proof. unfold subscript. destruct (d !! k); [congruence | discriminate]. Qed.

(** X14. In a completed pass the [used_bytes], [usedbydataset_bytes] and
    [available_bytes] samples of a dataset at full detail carry the parsed
    value of the property unchanged, and the [creation_date] sample carries
    the integer that the raw value of [creation] denotes, not its parsed
    value. *)
Theorem X14_full_detail_values self zfs time g self' datasets ds :
  collect self zfs time = (g, self') →
  raised g = None →
  libzfs.datasets zfs = Ok {| libzfs.items := datasets; libzfs.failure := None |} →
  identified ds datasets →
  depth ds < ZFSCollector.limit self →
  ∃ used dataset available creation z,
    ZFSDataset.properties ds !! "used" = Some used
    ∧ ZFSDataset.properties ds !! "usedbydataset" = Some dataset
    ∧ ZFSDataset.properties ds !! "available" = Some available
    ∧ ZFSDataset.properties ds !! "creation" = Some creation
    ∧ Str.parse_int (rawvalue creation) = Some z
    ∧ map Sample.value
        (dataset_samples_in "zfs_dataset_used_bytes" (ZFSDataset.name ds) (yielded g))
      = [parsed used]
    ∧ map Sample.value
        (dataset_samples_in "zfs_dataset_usedbydataset_bytes" (ZFSDataset.name ds)
           (yielded g))
      = [parsed dataset]
    ∧ map Sample.value
        (dataset_samples_in "zfs_dataset_available_bytes" (ZFSDataset.name ds)
           (yielded g))
      = [parsed available]
    ∧ map Sample.value
        (dataset_samples_in "zfs_dataset_creation_date" (ZFSDataset.name ds)
           (yielded g))
      = [VInt z].
Proof.
  intros C R Hd I D.
  destruct bytes_getters as (mu & md & ma & mc & Gu & Gd & Ga & Gc & Hg).
  destruct (Hg ds) as (Hu & Hds & Ha & Hc).
  destruct (full_detail_sample _ _ _ _ _ _ _ C R Hd I _ _ D Gu) as (vu & Vu & Su).
  destruct (full_detail_sample _ _ _ _ _ _ _ C R Hd I _ _ D Gd) as (vd & Vd & Sd).
  destruct (full_detail_sample _ _ _ _ _ _ _ C R Hd I _ _ D Ga) as (va & Va & Sa).
  destruct (full_detail_sample _ _ _ _ _ _ _ C R Hd I _ _ D Gc) as (vc & Vc & Sc).
  rewrite Hu in Vu. rewrite Hds in Vd. rewrite Ha in Va. rewrite Hc in Vc.
  apply bind_Ok_inv in Vu as (pu & Pu%subscript_Ok & [= <-]).
  apply bind_Ok_inv in Vd as (pd & Pd%subscript_Ok & [= <-]).
  apply bind_Ok_inv in Va as (pa & Pa%subscript_Ok & [= <-]).
  apply bind_Ok_inv in Vc as (pc & Pc%subscript_Ok & Vc).
  apply bind_Ok_inv in Vc as (z & Pz & [= <-]).
  unfold py_int in Pz.
  destruct (Str.parse_int (rawvalue pc)) as [z'|] eqn:Ez; [|discriminate].
  injection Pz as ->.
  exists pu, pd, pa, pc, z. repeat split; try done.
  - change "zfs_dataset_used_bytes" with ("zfs_dataset_" +:+ "used_bytes").
    by rewrite Su.
  - change "zfs_dataset_usedbydataset_bytes"
      with ("zfs_dataset_" +:+ "usedbydataset_bytes").
    by rewrite Sd.
  - change "zfs_dataset_available_bytes" with ("zfs_dataset_" +:+ "available_bytes").
    by rewrite Sa.
  - change "zfs_dataset_creation_date" with ("zfs_dataset_" +:+ "creation_date").
    by rewrite Sc.
Qed.

Lemma X14_full_detail_values_witness :
  map Sample.value
    (dataset_samples_in "zfs_dataset_creation_date" "tank/data"
       (yielded (collect Scenario.collector Scenario.zfs Scenario.clock).1))
  = [VInt 1700000000].
Proof.
  pose (r := collect Scenario.collector Scenario.zfs Scenario.clock).
  assert (C : collect Scenario.collector Scenario.zfs Scenario.clock = (r.1, r.2))
    by reflexivity.
  assert (R : raised r.1 = None) by reflexivity.
  assert (Hd : libzfs.datasets Scenario.zfs
               = Ok {| libzfs.items := Scenario.datasets; libzfs.failure := None |})
    by reflexivity.
  assert (I : identified Scenario.data Scenario.datasets) by reflexivity.
  assert (D : depth Scenario.data < ZFSCollector.limit Scenario.collector)
    by reflexivity.
  destruct (X14_full_detail_values _ _ _ _ _ _ _ C R Hd I D)
    as (pu & pd & pa & pc & z & _ & _ & _ & Hc & Hz & _ & _ & _ & S).
  injection Hc as <-. injection Hz as <-. exact S.
Defined.

(** ** All or nothing *)

(** X15. The consumer never sees a partial set of series: a pass either
    yields all ten series and raises nothing, or raises having yielded
    nothing and leaves the collector as it was. *)
Theorem X15_all_or_nothing self zfs time :
  (raised (collect self zfs time).1 = None
   ∧ length (yielded (collect self zfs time).1) = 10%nat)
  ∨ (∃ e, raised (collect self zfs time).1 = Some e
          ∧ yielded (collect self zfs time).1 = []
          ∧ (collect self zfs time).2 = self).
Proof.
  destruct (gather (ZFSCollector.limit self) zfs) as [[pm dm]|e] eqn:G.
  - left. destruct (collect self zfs time) as [g self'] eqn:C.
    assert (R : raised g = None).
    { unfold collect in C. rewrite G in C. by injection C as <- _. }
    split; [done|].
    apply collect_completed in C as (ps & dss & _ & _ & _ & _ & Y); [|done].
    cbn [fst]. rewrite Y, length_app, !length_map. reflexivity.
  - right. exists e. by rewrite (collect_Raise _ _ _ _ G).
Qed.
